(** * Restaurant booking system: booking routes and table availability

    A shallow embedding of

    - [backend/routes/bookings.js]: the Express router over the in-memory
      [bookings] array and the [nextId] counter;
    - [database/schema.sql]: the [tables] and [bookings] relations and the
      stored function [check_table_availability];

    followed by the properties of the specification that concern them. *)

From Stdlib Require Import ZArith Lia String Ascii.
From stdpp Require Import base list strings sorting.

Local Open Scope Z_scope.

(** ** JavaScript values

    Request bodies, query strings and booking fields are dynamically typed.
    The fragment below covers the JSON primitives.  A number is [NaN], an
    integer, a finite number that is no integer (a fraction of integers),
    or an infinity; ids and table counts are integers far below 2^53,
    where arithmetic on doubles is exact.  Arrays and objects used as
    field values are outside the fragment.  A string is the sequence of
    bytes of its UTF-8 encoding. *)

Module Js.

Inductive number : Type :=
| NaN
| Int (z : Z)
| Frac (n : Z) (d : positive)    (* [n / d], for a finite number that is no integer *)
| Infinity (negative : bool).

Inductive value : Type :=
| undefined
| null
| boolean (b : bool)
| num (n : number)
| str (s : string).

(** [ToBoolean]: what [if (v)] and [!v] test. *)
Definition ToBoolean (v : value) : bool :=
  match v with
  | undefined | null => false
  | boolean b => b
  | num NaN => false
  | num (Int z) => negb (z =? 0)
  | num (Frac n _) => negb (n =? 0)
  | num (Infinity _) => true
  | str s => negb (String.eqb s "")
  end.

(** [!v] *)
Definition not (v : value) : bool := negb (ToBoolean v).

Definition code (c : ascii) : Z := Z.of_N (N_of_ascii c).

(** The one-byte members of [WhiteSpace] and [LineTerminator]:
    TAB, LF, VT, FF, CR and SP. *)
Definition is_white (c : ascii) : bool :=
  ((9 <=? code c) && (code c <=? 13)) || (code c =? 32).

(** U+00A0. *)
Definition is_white2 (a b : Z) : bool := (a =? 194) && (b =? 160).

(** U+1680, U+2000 to U+200A, U+2028, U+2029, U+202F, U+205F, U+3000
    and U+FEFF. *)
Definition is_white3 (a b c : Z) : bool :=
  ((a =? 225) && (b =? 154) && (c =? 128))
  || ((a =? 226) && (b =? 128)
      && (((128 <=? c) && (c <=? 138)) || (c =? 168) || (c =? 169)
          || (c =? 175)))
  || ((a =? 226) && (b =? 129) && (c =? 159))
  || ((a =? 227) && (b =? 128) && (c =? 128))
  || ((a =? 239) && (b =? 187) && (c =? 191)).

(** Value of a digit in the given radix (10 or 16). *)
Definition digit (radix : Z) (c : ascii) : option Z :=
  let n := code c in
  if (48 <=? n) && (n <=? 57) then Some (n - 48)
  else if (radix =? 16) && (97 <=? n) && (n <=? 102) then Some (n - 87)
  else if (radix =? 16) && (65 <=? n) && (n <=? 70) then Some (n - 55)
  else None.

(** Drops leading white space ([StrWhiteSpaceChar]). *)
Fixpoint skip_white (l : list ascii) : list ascii :=
  match l with
  | [] => []
  | c1 :: l1 =>
      if is_white c1 then skip_white l1
      else
        match l1 with
        | [] => l
        | c2 :: l2 =>
            if is_white2 (code c1) (code c2) then skip_white l2
            else
              match l2 with
              | [] => l
              | c3 :: l3 =>
                  if is_white3 (code c1) (code c2) (code c3)
                  then skip_white l3
                  else l
              end
        end
  end.

(** Longest prefix of digits, accumulated left to right; the flag tells
    whether at least one digit was read. *)
Fixpoint digits_prefix (radix : Z) (l : list ascii) (acc : Z) (seen : bool)
  : Z * bool * list ascii :=
  match l with
  | c :: l' =>
      match digit radix c with
      | Some d => digits_prefix radix l' (acc * radix + d) true
      | None => (acc, seen, l)
      end
  | [] => (acc, seen, [])
  end.

Definition split_sign (l : list ascii) : Z * list ascii :=
  match l with
  | "-"%char :: l' => (-1, l')
  | "+"%char :: l' => (1, l')
  | _ => (1, l)
  end.

(** [parseInt(s)] with no radix argument: leading white space is skipped,
    an optional sign is read, a [0x]/[0X] prefix selects radix 16, and the
    longest prefix of digits is converted; [NaN] when there is none. *)
Definition parseInt (s : string) : number :=
  let (sign, l) := split_sign (skip_white (list_ascii_of_string s)) in
  let (radix, l) :=
    match l with
    | "0"%char :: "x"%char :: l' | "0"%char :: "X"%char :: l' => (16, l')
    | _ => (10, l)
    end in
  match digits_prefix radix l 0 false with
  | (n, true, _) => Int (sign * n)
  | (_, false, _) => NaN
  end.

(** Value of a digit below the radix (2, 8, 10 or 16). *)
Definition digit_below (radix : Z) (c : ascii) : option Z :=
  match digit 16 c with
  | Some d => if d <? radix then Some d else None
  | None => None
  end.

(** Longest prefix of digits below the radix, accumulated onto [acc], with
    the number of digits read. *)
Fixpoint take_digits (radix : Z) (l : list ascii) (acc : Z) (count : Z)
  : Z * Z * list ascii :=
  match l with
  | c :: l' =>
      match digit_below radix c with
      | Some d => take_digits radix l' (acc * radix + d) (count + 1)
      | None => (acc, count, l)
      end
  | [] => (acc, count, [])
  end.

(** [x * 2^k] for the fraction [x = n / d]. *)
Definition scale2 (n d k : Z) : Z * Z :=
  if 0 <=? k then (n * 2 ^ k, d) else (n, d * 2 ^ (- k)).

(** The integer nearest to [n / d], the even one of two that are equally
    near ([0 <= n], [0 < d]). *)
Definition round_half_even (n d : Z) : Z :=
  let f := n / d in
  let r := n mod d in
  if 2 * r <? d then f
  else if d <? 2 * r then f + 1
  else if Z.even f then f else f + 1.

(** The double nearest to [n / d] ([0 < n], [0 < d]), as the conversion
    of a literal to a Number value rounds it: 53 bits of mantissa, ties
    to even, subnormals below [2^-1022], infinity from [2^1024]. *)
Definition nearest_double (n d : Z) : number :=
  let e0 := Z.log2 n - Z.log2 d in
  let e := (let (a, b) := scale2 n d (- e0) in if b <=? a then e0 else e0 - 1) in
  let ee := Z.max e (-1022) in
  let (a, b) := scale2 n d (52 - ee) in
  let m := round_half_even a b in
  if 0 <=? ee - 52 then
    let v := m * 2 ^ (ee - 52) in
    if 2 ^ 1024 <=? v then Infinity false else Int v
  else
    let k := 52 - ee in
    if m mod 2 ^ k =? 0 then Int (m / 2 ^ k)
    else
      let g := Z.gcd m (2 ^ k) in
      Frac (m / g) (Z.to_pos (2 ^ k / g)).

(** The Number value of the mathematical value [(-1)^negative * n / d]
    ([0 <= n], [0 < d]). *)
Definition of_fraction (negative : bool) (n d : Z) : number :=
  if n =? 0 then Int 0
  else
    match nearest_double n d with
    | Int v => Int (if negative then - v else v)
    | Frac a b => Frac (if negative then - a else a) b
    | Infinity _ => Infinity negative
    | NaN => NaN
    end.

(** [ExponentPart], when there is one: the exponent and what follows it;
    [None] when an [e] is not followed by a signed integer. *)
Definition exponent_part (l : list ascii) : option (Z * list ascii) :=
  match l with
  | "e"%char :: l' | "E"%char :: l' =>
      let (sign, l2) := split_sign l' in
      match take_digits 10 l2 0 0 with
      | (n, count, rest) => if 0 <? count then Some (sign * n, rest) else None
      end
  | _ => Some (0, l)
  end.

(** [StrUnsignedDecimalLiteral] other than [Infinity]: digits with an
    optional fraction, or a fraction alone, and an optional exponent.
    The result [(n, k, rest)] stands for the value [n * 10^k]. *)
Definition unsigned_decimal (l : list ascii) : option (Z * Z * list ascii) :=
  match take_digits 10 l 0 0 with
  | (ip, ni, "."%char :: r) =>
      match take_digits 10 r ip 0 with
      | (fp, nf, r2) =>
          if (0 <? ni) || (0 <? nf)
          then match exponent_part r2 with
               | Some (e, rest) => Some (fp, e - nf, rest)
               | None => None
               end
          else None
      end
  | (ip, ni, r1) =>
      if 0 <? ni
      then match exponent_part r1 with
           | Some (e, rest) => Some (ip, e, rest)
           | None => None
           end
      else None
  end.

(** Only white space is left. *)
Definition at_end (l : list ascii) : bool :=
  match skip_white l with [] => true | _ => false end.

(** [0b], [0o] and [0x] literals; they take no sign. *)
Definition non_decimal (radix : Z) (l : list ascii) : number :=
  match take_digits radix l 0 0 with
  | (n, count, rest) =>
      if (0 <? count) && at_end rest then of_fraction false n 1 else NaN
  end.

(** [StrDecimalLiteral]: an optional sign, then [Infinity] or an unsigned
    decimal literal. *)
Definition decimal (l : list ascii) : number :=
  let (sign, l1) := split_sign l in
  let negative := sign <? 0 in
  match l1 with
  | "I"%char :: "n"%char :: "f"%char :: "i"%char :: "n"%char :: "i"%char
    :: "t"%char :: "y"%char :: rest =>
      if at_end rest then Infinity negative else NaN
  | _ =>
      match unsigned_decimal l1 with
      | Some (n, k, rest) =>
          if at_end rest
          then if 0 <=? k then of_fraction negative (n * 10 ^ k) 1
               else of_fraction negative n (10 ^ (- k))
          else NaN
      | None => NaN
      end
  end.

(** [ToNumber] on a string ([StringToNumber]): white space is trimmed on
    both sides, the empty string is [0], a [StrNumericLiteral] is rounded
    to its Number value, and any other string is [NaN]. *)
Definition StringToNumber (s : string) : number :=
  match skip_white (list_ascii_of_string s) with
  | [] => Int 0
  | "0"%char :: "x"%char :: l' | "0"%char :: "X"%char :: l' => non_decimal 16 l'
  | "0"%char :: "o"%char :: l' | "0"%char :: "O"%char :: l' => non_decimal 8 l'
  | "0"%char :: "b"%char :: l' | "0"%char :: "B"%char :: l' => non_decimal 2 l'
  | l => decimal l
  end.

Definition ToNumber (v : value) : number :=
  match v with
  | undefined => NaN
  | null => Int 0
  | boolean b => Int (if b then 1 else 0)
  | num n => n
  | str s => StringToNumber s
  end.

(** [v < k] and [v > k] against a numeric literal [k]: the operand is
    converted with [ToNumber] and any comparison with [NaN] is false. *)
Definition lt (v : value) (k : Z) : bool :=
  match ToNumber v with
  | NaN => false
  | Int z => z <? k
  | Frac n d => n <? k * Z.pos d
  | Infinity negative => negative
  end.

Definition gt (v : value) (k : Z) : bool :=
  match ToNumber v with
  | NaN => false
  | Int z => k <? z
  | Frac n d => k * Z.pos d <? n
  | Infinity negative => negb negative
  end.

(** [a === b] on primitives: same type and same value, [NaN] equal to
    nothing. *)
Definition strict_eq (a b : value) : bool :=
  match a, b with
  | undefined, undefined => true
  | null, null => true
  | boolean x, boolean y => Bool.eqb x y
  | num (Int x), num (Int y) => x =? y
  | num (Frac a b), num (Frac c d) => a * Z.pos d =? c * Z.pos b
  | num (Infinity x), num (Infinity y) => Bool.eqb x y
  | str x, str y => String.eqb x y
  | _, _ => false
  end.

End Js.

(** ** The booking store of [backend/routes/bookings.js] *)

Module Booking.
(** The object pushed by [POST /]; [updatedAt] is absent until the first
    [PUT]. *)
Record t : Type := mk {
  id : Z;
  date : Js.value;
  time : Js.value;
  guests : Js.value;
  name : Js.value;
  email : Js.value;
  phone : Js.value;
  status : Js.value;
  createdAt : string;
  updatedAt : option string
}.
End Booking.

Module Body.
(** The fields the handlers destructure from [req.body]; a field that the
    client did not send is [undefined]. *)
Record t : Type := mk {
  date : Js.value;
  time : Js.value;
  guests : Js.value;
  name : Js.value;
  email : Js.value;
  phone : Js.value;
  status : Js.value
}.
End Body.

(** [let bookings = []; let nextId = 1;] *)
Record Store : Type := mkStore {
  bookings : list Booking.t;
  nextId : Z
}.

Definition initial : Store := {| bookings := []; nextId := 1 |}.

(** The [data] object of the availability response. *)
Record Summary : Type := mkSummary {
  s_date : Js.value;
  s_time : Js.value;
  totalTables : Z;
  occupiedTables : Z;
  availableTables : Z;
  isAvailable : bool
}.

(** The JSON documents passed to [res.json]. *)
Inductive Payload : Type :=
| PList (data : list Booking.t) (count : Z)
| PBooking (message : option string) (data : Booking.t)
| PMessage (message : string)
| PSummary (data : Summary).

Record Response : Type := mkResponse {
  statusCode : Z;
  success : bool;
  payload : Payload
}.

Definition msg_not_found : string := "Резервацията не е намерена".
Definition msg_all_required : string := "Всички полета са задължителни".
Definition msg_guests_range : string := "Броят гости трябва да е между 1 и 10".
Definition msg_created : string := "Резервацията е създадена успешно".
Definition msg_updated : string := "Резервацията е актуализирана".
Definition msg_deleted : string := "Резервацията е изтрита успешно".
Definition msg_date_time_required : string := "Дата и час са задължителни".

Definition failure (code : Z) (m : string) : Response :=
  {| statusCode := code; success := false; payload := PMessage m |}.

(** [b.id === parseInt(req.params.id)] *)
Definition id_matches (n : Js.number) (b : Booking.t) : bool :=
  Js.strict_eq (Js.num (Js.Int (Booking.id b))) (Js.num n).

(** [Array.prototype.findIndex], with [None] for [-1]. *)
Fixpoint findIndex {A : Type} (p : A -> bool) (l : list A) : option nat :=
  match l with
  | [] => None
  | x :: l' => if p x then Some 0%nat else S <$> findIndex p l'
  end.

(** [Array.prototype.find] hands out a reference to the element itself; the
    handler of [PUT] assigns through it, so the model keeps the position
    next to the element in order to write the object back in place. *)
Fixpoint findRef {A : Type} (p : A -> bool) (l : list A) : option (nat * A) :=
  match l with
  | [] => None
  | x :: l' =>
      if p x then Some (0%nat, x)
      else (fun r => (S (fst r), snd r)) <$> findRef p l'
  end.

(** [GET /] *)
Definition listBookings (st : Store) : Response * Store :=
  ({| statusCode := 200; success := true;
      payload := PList (bookings st) (Z.of_nat (length (bookings st))) |}, st).

(** [GET /:id] *)
Definition getBooking (st : Store) (idParam : string) : Response * Store :=
  match List.find (id_matches (Js.parseInt idParam)) (bookings st) with
  | None => (failure 404 msg_not_found, st)
  | Some booking =>
      ({| statusCode := 200; success := true;
          payload := PBooking None booking |}, st)
  end.

(** The object literal built by [POST /]; [now] is the value of
    [new Date().toISOString()] and [i] the value of [nextId++]. *)
Definition newBooking (now : string) (i : Z) (body : Body.t) : Booking.t :=
  {| Booking.id := i;
     Booking.date := Body.date body;
     Booking.time := Body.time body;
     Booking.guests := Body.guests body;
     Booking.name := Body.name body;
     Booking.email := Body.email body;
     Booking.phone := Body.phone body;
     Booking.status := Js.str "confirmed";
     Booking.createdAt := now;
     Booking.updatedAt := None |}.

Definition created (b : Booking.t) : Response :=
  {| statusCode := 201; success := true;
     payload := PBooking (Some msg_created) b |}.

(** [POST /] *)
Definition createBooking (now : string) (st : Store) (body : Body.t)
  : Response * Store :=
  if Js.not (Body.date body) || Js.not (Body.time body)
     || Js.not (Body.guests body) || Js.not (Body.name body)
     || Js.not (Body.email body) || Js.not (Body.phone body)
  then (failure 400 msg_all_required, st)
  else if Js.lt (Body.guests body) 1 || Js.gt (Body.guests body) 10
  then (failure 400 msg_guests_range, st)
  else
    let booking := newBooking now (nextId st) body in
    (created booking,
     {| bookings := bookings st ++ [booking]; nextId := nextId st + 1 |}).

(** [if (v) booking.f = v;] *)
Definition assign_if (v old : Js.value) : Js.value :=
  if Js.ToBoolean v then v else old.

(** The assignments of [PUT /:id] on the booking found. *)
Definition applyPatch (now : string) (body : Body.t) (booking : Booking.t)
  : Booking.t :=
  {| Booking.id := Booking.id booking;
     Booking.date := assign_if (Body.date body) (Booking.date booking);
     Booking.time := assign_if (Body.time body) (Booking.time booking);
     Booking.guests := assign_if (Body.guests body) (Booking.guests booking);
     Booking.name := assign_if (Body.name body) (Booking.name booking);
     Booking.email := assign_if (Body.email body) (Booking.email booking);
     Booking.phone := assign_if (Body.phone body) (Booking.phone booking);
     Booking.status := assign_if (Body.status body) (Booking.status booking);
     Booking.createdAt := Booking.createdAt booking;
     Booking.updatedAt := Some now |}.

Definition updated (b : Booking.t) : Response :=
  {| statusCode := 200; success := true;
     payload := PBooking (Some msg_updated) b |}.

(** [PUT /:id] *)
Definition updateBooking (now : string) (st : Store) (idParam : string)
  (body : Body.t) : Response * Store :=
  match findRef (id_matches (Js.parseInt idParam)) (bookings st) with
  | None => (failure 404 msg_not_found, st)
  | Some (i, booking) =>
      let booking' := applyPatch now body booking in
      (updated booking',
       {| bookings := <[i := booking']> (bookings st); nextId := nextId st |})
  end.

(** [DELETE /:id]; [splice(index, 1)] removes the element at [index]. *)
Definition deleteBooking (st : Store) (idParam : string) : Response * Store :=
  match findIndex (id_matches (Js.parseInt idParam)) (bookings st) with
  | None => (failure 404 msg_not_found, st)
  | Some index =>
      ({| statusCode := 200; success := true;
          payload := PMessage msg_deleted |},
       {| bookings := delete index (bookings st); nextId := nextId st |})
  end.

(** The filter of [GET /check/availability]. *)
Definition occupies (qdate qtime : Js.value) (b : Booking.t) : bool :=
  Js.strict_eq (Booking.date b) qdate
  && Js.strict_eq (Booking.time b) qtime
  && Js.strict_eq (Booking.status b) (Js.str "confirmed").

(** [GET /check/availability] *)
Definition checkAvailability (st : Store) (qdate qtime : Js.value)
  : Response * Store :=
  if Js.not qdate || Js.not qtime
  then (failure 400 msg_date_time_required, st)
  else
    let existingBookings := List.filter (occupies qdate qtime) (bookings st) in
    let total := 15 in
    let occupied := Z.of_nat (length existingBookings) in
    let available := total - occupied in
    ({| statusCode := 200; success := true;
        payload := PSummary {| s_date := qdate; s_time := qtime;
                               totalTables := total;
                               occupiedTables := occupied;
                               availableTables := available;
                               isAvailable := 0 <? available |} |}, st).

(** ** The relational schema of [database/schema.sql] *)

Module Sql.

(** The values admitted by the [CHECK] on [bookings.status]. *)
Inductive BookingStatus : Type :=
| pending | confirmed | cancelled | completed | no_show.

(** A row of [tables]; columns without [NOT NULL] are nullable. *)
Module Table.
Record t : Type := mk {
  id : Z;
  restaurant_id : option Z;
  table_number : string;
  capacity : Z;
  location : option string;
  is_available : option bool
}.
End Table.

(** The columns of [bookings] that the stored function reads; [DATE] is a
    day number and [TIME] a number of microseconds since midnight. *)
Module Row.
Record t : Type := mk {
  id : Z;
  table_id : option Z;
  booking_date : Z;
  booking_time : Z;
  number_of_guests : Z;
  status : option BookingStatus
}.
End Row.

Record Database : Type := mkDatabase {
  tables : list Table.t;      (* in heap order *)
  bookings : list Row.t
}.

(** A row of [RETURNS TABLE(table_id INT, table_number VARCHAR, capacity INT)]. *)
Record Candidate : Type := mkCandidate {
  table_id : Z;
  table_number : string;
  capacity : Z
}.

Definition select_list (t : Table.t) : Candidate :=
  {| table_id := Table.id t;
     table_number := Table.table_number t;
     capacity := Table.capacity t |}.

(** [b.status IN ('confirmed', 'pending')]; unknown on [NULL]. *)
Definition status_active (s : option BookingStatus) : bool :=
  match s with
  | Some confirmed | Some pending => true
  | _ => false
  end.

(** The [WHERE] clause of the subquery, for the table row [t]. *)
Definition blocks (p_date p_time : Z) (t : Table.t) (b : Row.t) : bool :=
  match Row.table_id b with
  | Some i => i =? Table.id t
  | None => false
  end
  && (Row.booking_date b =? p_date)
  && (Row.booking_time b =? p_time)
  && status_active (Row.status b).

(** The [WHERE] clause of the outer query. *)
Definition qualifies (db : Database) (p_date p_time p_guests : Z)
  (t : Table.t) : bool :=
  (p_guests <=? Table.capacity t)
  && match Table.is_available t with Some true => true | _ => false end
  && negb (existsb (blocks p_date p_time t) (bookings db)).

Definition capacity_le (a b : Candidate) : Prop := capacity a <= capacity b.

(** What [ORDER BY t.capacity ASC] guarantees of the rows returned: they
    are the selected rows, in some order that is ascending in
    [capacity].  The order of rows with equal keys is left to the
    executor. *)
Definition returns (db : Database) (p_date p_time p_guests : Z)
  (rows : list Candidate) : Prop :=
  rows ≡ₚ (select_list <$> List.filter (qualifies db p_date p_time p_guests) (tables db))
  /\ StronglySorted capacity_le rows.

Fixpoint insert_by_capacity (r : Candidate) (l : list Candidate)
  : list Candidate :=
  match l with
  | [] => [r]
  | x :: l' =>
      if capacity r <=? capacity x then r :: l
      else x :: insert_by_capacity r l'
  end.

Definition order_by_capacity (l : list Candidate) : list Candidate :=
  foldr insert_by_capacity [] l.

(** One executor: a sequential scan of the heap followed by a stable
    sort on [capacity]. *)
Definition check_table_availability (db : Database)
  (p_date p_time p_guests : Z) : list Candidate :=
  order_by_capacity
    (select_list <$> List.filter (qualifies db p_date p_time p_guests) (tables db)).

(** Ascending capacity with ties broken by ascending table id. *)
Definition capacity_then_id (a b : Candidate) : Prop :=
  capacity a < capacity b
  \/ (capacity a = capacity b /\ table_id a <= table_id b).

Definition seed (i : Z) (number : string) (cap : Z) (loc : string) : Table.t :=
  {| Table.id := i; Table.restaurant_id := Some 1;
     Table.table_number := number; Table.capacity := cap;
     Table.location := Some loc; Table.is_available := Some true |}.

(** The rows of [INSERT INTO tables], with the ids that [SERIAL] assigns
    in an empty relation. *)
Definition sample_tables : list Table.t :=
  [ seed 1 "T01" 2 "indoor"; seed 2 "T02" 2 "indoor";
    seed 3 "T03" 4 "indoor"; seed 4 "T04" 4 "indoor";
    seed 5 "T05" 4 "indoor"; seed 6 "T06" 6 "indoor";
    seed 7 "T07" 6 "indoor"; seed 8 "T08" 8 "indoor";
    seed 9 "T09" 4 "outdoor"; seed 10 "T10" 4 "outdoor";
    seed 11 "T11" 6 "outdoor"; seed 12 "T12" 2 "terrace";
    seed 13 "T13" 2 "terrace"; seed 14 "T14" 4 "terrace";
    seed 15 "T15" 4 "terrace" ].

(** Two tables of equal capacity after [T01] was updated: the new
    version of its row lies behind [T02] in the heap. *)
Definition reordered_heap : Database :=
  {| tables := [seed 2 "T02" 2 "indoor"; seed 1 "T01" 2 "indoor"];
     bookings := [] |}.

End Sql.

(** ** The router as a state machine *)

Inductive Request : Type :=
| GetAll
| GetOne (idParam : string)
| Post (now : string) (body : Body.t)
| Put (now : string) (idParam : string) (body : Body.t)
| Delete (idParam : string)
| GetAvailability (qdate qtime : Js.value).

Definition handle (st : Store) (rq : Request) : Response * Store :=
  match rq with
  | GetAll => listBookings st
  | GetOne idParam => getBooking st idParam
  | Post now body => createBooking now st body
  | Put now idParam body => updateBooking now st idParam body
  | Delete idParam => deleteBooking st idParam
  | GetAvailability qdate qtime => checkAvailability st qdate qtime
  end.

(** The store after the requests were handled in turn. *)
Definition run (st : Store) (rqs : list Request) : Store :=
  foldl (fun st rq => snd (handle st rq)) st rqs.

Definition reachable (st : Store) : Prop := exists rqs, run initial rqs = st.

(** Ids are handed out once: the ids in the array are distinct and below
    the counter. *)
Definition ids_fresh (st : Store) : Prop :=
  NoDup (Booking.id <$> bookings st)
  /\ Forall (fun b => Booking.id b < nextId st) (bookings st).

(** ** Auxiliary definitions for the statements *)

(** The first guard of [POST /]: some required field is falsy. *)
Definition incomplete (body : Body.t) : bool :=
  Js.not (Body.date body) || Js.not (Body.time body)
  || Js.not (Body.guests body) || Js.not (Body.name body)
  || Js.not (Body.email body) || Js.not (Body.phone body).

(** The second guard of [POST /]. *)
Definition out_of_range (body : Body.t) : bool :=
  Js.lt (Body.guests body) 1 || Js.gt (Body.guests body) 10.

(** A validated request: every required field is truthy and the party
    size reads as an integer from 1 to 10. *)
Definition validated (body : Body.t) : bool :=
  negb (incomplete body)
  && match Js.ToNumber (Body.guests body) with
     | Js.Int n => (1 <=? n) && (n <=? 10)
     | _ => false
     end.

(** The store after a successful [POST /]. *)
Definition pushed (now : string) (st : Store) (body : Body.t) : Store :=
  {| bookings := bookings st ++ [newBooking now (nextId st) body];
     nextId := nextId st + 1 |}.

(** Requests with the same body handled one after another, each with its
    own reading of the clock.  Every handler runs to completion before the
    next request is taken from the event loop, so requests that arrive
    together are handled in this way, in some order. *)
Fixpoint createAll (nows : list string) (st : Store) (body : Body.t)
  : list Response * Store :=
  match nows with
  | [] => ([], st)
  | now :: nows' =>
      let (r, st1) := createBooking now st body in
      let (rs, st2) := createAll nows' st1 body in
      (r :: rs, st2)
  end.



Definition rejected (r : Response) : bool := negb (success r).


(** The validation kinds of the specification. *)
Inductive Violation : Type :=
| MissingField | InvalidPartySize | PastDate | InvalidEmail.

(** The violations a failure response names, read off its [message]. *)
Definition violations (r : Response) : list Violation :=
  match payload r with
  | PMessage m =>
      if success r then []
      else if String.eqb m msg_all_required then [MissingField]
      else if String.eqb m msg_guests_range then [InvalidPartySize]
      else []
  | _ => []
  end.

(** The specification's rule [MissingField], in its words: a required field
    is absent. *)
Definition spec_missing_field (body : Body.t) : bool :=
  let absent v := Js.strict_eq v Js.undefined in
  absent (Body.date body) || absent (Body.time body)
  || absent (Body.guests body) || absent (Body.name body)
  || absent (Body.email body) || absent (Body.phone body).

(** A field that the client left out: it is missing, [null] or the empty
    string. *)
Definition blank (v : Js.value) : bool :=
  match v with
  | Js.undefined | Js.null => true
  | Js.str s => String.eqb s ""
  | _ => false
  end.

(** Some required field was left out. *)
Definition lacks_field (body : Body.t) : bool :=
  blank (Body.date body) || blank (Body.time body)
  || blank (Body.guests body) || blank (Body.name body)
  || blank (Body.email body) || blank (Body.phone body).

(** The specification's rule [InvalidPartySize], in its words: the party
    size does not parse as an integer in [1, 10]. *)
Definition spec_invalid_party_size (body : Body.t) : bool :=
  match Js.ToNumber (Body.guests body) with
  | Js.Int n => (n <? 1) || (10 <? n)
  | _ => true
  end.

(** The specification's combined report: every violated rule is named. *)
Definition reports_every_violation (body : Body.t) (r : Response) : Prop :=
  (spec_missing_field body = true -> MissingField ∈ violations r)
  /\ (spec_invalid_party_size body = true -> InvalidPartySize ∈ violations r).

(** [validBooking] of [tests/booking.test.js]. *)
Definition validBooking : Body.t :=
  {| Body.date := Js.str "2026-02-15";
     Body.time := Js.str "19:00";
     Body.guests := Js.num (Js.Int 4);
     Body.name := Js.str "Иван Петров";
     Body.email := Js.str "ivan.petrov@example.com";
     Body.phone := Js.str "+359888123456";
     Body.status := Js.undefined |}.

(** [{...body, guests: g}] *)
Definition with_guests (g : Js.value) (body : Body.t) : Body.t :=
  {| Body.date := Body.date body; Body.time := Body.time body;
     Body.guests := g; Body.name := Body.name body;
     Body.email := Body.email body; Body.phone := Body.phone body;
     Body.status := Body.status body |}.

(** [{...body, date: d}] *)
Definition with_date (d : Js.value) (body : Body.t) : Body.t :=
  {| Body.date := d; Body.time := Body.time body;
     Body.guests := Body.guests body; Body.name := Body.name body;
     Body.email := Body.email body; Body.phone := Body.phone body;
     Body.status := Body.status body |}.

(** [{...body, phone: undefined}]: the request without its [phone]. *)
Definition without_phone (body : Body.t) : Body.t :=
  {| Body.date := Body.date body; Body.time := Body.time body;
     Body.guests := Body.guests body; Body.name := Body.name body;
     Body.email := Body.email body; Body.phone := Js.undefined;
     Body.status := Body.status body |}.

(** A body that carries [status] only. *)
Definition status_only (s : Js.value) : Body.t :=
  {| Body.date := Js.undefined; Body.time := Js.undefined;
     Body.guests := Js.undefined; Body.name := Js.undefined;
     Body.email := Js.undefined; Body.phone := Js.undefined;
     Body.status := s |}.

(** A booking that keeps its table, in the specification's words: its
    status is ['pending'] or ['confirmed']. *)
Definition active (b : Booking.t) : bool :=
  Js.strict_eq (Booking.status b) (Js.str "pending")
  || Js.strict_eq (Booking.status b) (Js.str "confirmed").

(** [b.date === date && b.time === time] *)
Definition at_slot (qdate qtime : Js.value) (b : Booking.t) : bool :=
  Js.strict_eq (Booking.date b) qdate && Js.strict_eq (Booking.time b) qtime.

(** The tables that have an active booking at the slot, when [table_of]
    tells which table each booking holds. *)
Definition tables_held (table_of : Booking.t -> Z) (qdate qtime : Js.value)
  (bs : list Booking.t) : list Z :=
  remove_dups
    (table_of <$> List.filter (fun b => at_slot qdate qtime b && active b) bs).

(** The transition table of the specification, in its words:
    pending to confirmed or cancelled; confirmed to completed, cancelled or
    no_show; nothing out of cancelled, completed or no_show. *)
Definition spec_legal_transition (from to : string) : bool :=
  if String.eqb from "pending"
  then String.eqb to "confirmed" || String.eqb to "cancelled"
  else if String.eqb from "confirmed"
  then String.eqb to "completed" || String.eqb to "cancelled"
       || String.eqb to "no_show"
  else false.

(** The specification's status update: an illegal transition is refused
    and the store is left as it was. *)
Definition guards_transition (now : string) (st : Store) (idParam : string)
  (from to : string) : Prop :=
  spec_legal_transition from to = false ->
  rejected (fst (updateBooking now st idParam (status_only (Js.str to)))) = true
  /\ snd (updateBooking now st idParam (status_only (Js.str to))) = st.


(** What [if (v) booking.f = v;] leaves in field [f]: [v] when it is
    truthy, the old content otherwise. *)
Definition patched (v old new : Js.value) : Prop :=
  (Js.ToBoolean v = true -> new = v) /\ (Js.ToBoolean v = false -> new = old).

Definition clock : string := "2026-02-01T10:00:00.000Z".

(** The store after [n] copies of [validBooking] were posted. *)
Definition posted (n : nat) : Store :=
  snd (createAll (replicate n clock) initial validBooking).

(** The store after one booking was posted and then cancelled through
    [PUT /1]. *)
Definition cancelled_store : Store :=
  snd (updateBooking clock (posted 1) "1" (status_only (Js.str "cancelled"))).

(** ** Traces, occupancy and stored fields *)

(** The responses to the requests handled in turn. *)
Fixpoint trace (st : Store) (rqs : list Request) : list Response :=
  match rqs with
  | [] => []
  | rq :: rqs' => fst (handle st rq) :: trace (snd (handle st rq)) rqs'
  end.

(** The response of a [POST /] that stored a booking. *)
Definition is_created (r : Response) : bool := statusCode r =? 201.

(** The response of a [DELETE /:id] that removed a booking: the only
    success that carries a message and no data. *)
Definition is_deleted (r : Response) : bool :=
  success r && match payload r with PMessage _ => true | _ => false end.

(** The response of [GET /:id] on a booking that exists. *)
Definition found (b : Booking.t) : Response :=
  {| statusCode := 200; success := true; payload := PBooking None b |}.

(** Ids grow along the array, start at 1 and stay below the counter. *)
Definition ids_ascending (st : Store) : Prop :=
  StronglySorted Z.lt (Booking.id <$> bookings st)
  /\ Forall (fun b => 1 <= Booking.id b < nextId st) (bookings st)
  /\ 1 <= nextId st.

(** Every field that [POST /] requires, and the status, is truthy. *)
Definition well_filled (b : Booking.t) : bool :=
  Js.ToBoolean (Booking.date b) && Js.ToBoolean (Booking.time b)
  && Js.ToBoolean (Booking.guests b) && Js.ToBoolean (Booking.name b)
  && Js.ToBoolean (Booking.email b) && Js.ToBoolean (Booking.phone b)
  && Js.ToBoolean (Booking.status b).

(** [occupiedTables] as [GET /check/availability] reports it; [None] when
    the route answers with an error. *)
Definition occupied (st : Store) (qdate qtime : Js.value) : option Z :=
  match payload (fst (checkAvailability st qdate qtime)) with
  | PSummary s => Some (occupiedTables s)
  | _ => None
  end.

(** ** The booking form of the frontend *)

Module BookingForm.

(** The state held by [useState]. *)
Record formData : Type := mk {
  date : Js.value;
  time : Js.value;
  guests : Js.value;
  name : Js.value;
  email : Js.value;
  phone : Js.value
}.

Definition initialState : formData :=
  {| date := Js.str ""; time := Js.str ""; guests := Js.num (Js.Int 2);
     name := Js.str ""; email := Js.str ""; phone := Js.str "" |}.

(** The events the component listens to; [value] is [e.target.value]. *)
Inductive Event : Type :=
| ChangeDate (value : string)
| ChangeTime (value : string)
| ChangeGuests (value : string)
| ChangeName (value : string)
| ChangeEmail (value : string)
| Submit.

(** The [onChange] handlers call [setFormData({...formData, f: value})];
    [handleSubmit] logs the data and leaves the state alone. *)
Definition on (fd : formData) (e : Event) : formData :=
  match e with
  | ChangeDate v =>
      {| date := Js.str v; time := time fd; guests := guests fd;
         name := name fd; email := email fd; phone := phone fd |}
  | ChangeTime v =>
      {| date := date fd; time := Js.str v; guests := guests fd;
         name := name fd; email := email fd; phone := phone fd |}
  | ChangeGuests v =>
      {| date := date fd; time := time fd; guests := Js.str v;
         name := name fd; email := email fd; phone := phone fd |}
  | ChangeName v =>
      {| date := date fd; time := time fd; guests := guests fd;
         name := Js.str v; email := email fd; phone := phone fd |}
  | ChangeEmail v =>
      {| date := date fd; time := time fd; guests := guests fd;
         name := name fd; email := Js.str v; phone := phone fd |}
  | Submit => fd
  end.

(** The state after the events, each one handled on the state that the
    previous one rendered. *)
Definition after (es : list Event) : formData := foldl on initialState es.

(** The form data as the body of a request. *)
Definition body (fd : formData) : Body.t :=
  {| Body.date := date fd; Body.time := time fd; Body.guests := guests fd;
     Body.name := name fd; Body.email := email fd; Body.phone := phone fd;
     Body.status := Js.undefined |}.

End BookingForm.

(** The sum of [f] over a list. *)
Definition sumZ {A : Type} (f : A -> Z) (l : list A) : Z :=
  foldr (fun x acc => f x + acc) 0 l.

(** ** The reporting view [v_daily_bookings] of [database/schema.sql] *)

Module Reports.

(** A row of the view. *)
Record DailyBookings : Type := mk {
  booking_date : Z;
  total_bookings : Z;
  total_guests : Z;
  confirmed_bookings : Z;
  cancelled_bookings : Z
}.

(** [ORDER BY booking_date DESC] *)
Definition later_first (a b : Z) : Prop := b <= a.

Definition later_first_dec (a b : Z) : Decision (later_first a b) :=
  decide (b <= a).

(** [status = s], unknown on [NULL]. *)
Definition has_status (s : Sql.BookingStatus) (b : Sql.Row.t) : bool :=
  match Sql.Row.status b, s with
  | Some Sql.pending, Sql.pending
  | Some Sql.confirmed, Sql.confirmed
  | Some Sql.cancelled, Sql.cancelled
  | Some Sql.completed, Sql.completed
  | Some Sql.no_show, Sql.no_show => true
  | _, _ => false
  end.

(** The rows of one group of [GROUP BY booking_date]. *)
Definition group (d : Z) (bs : list Sql.Row.t) : list Sql.Row.t :=
  List.filter (fun b => Sql.Row.booking_date b =? d) bs.

(** [SUM(number_of_guests)] over a group. *)
Definition sum_guests (g : list Sql.Row.t) : Z :=
  sumZ Sql.Row.number_of_guests g.

(** The select list, evaluated on the group of [d]. *)
Definition aggregate (d : Z) (bs : list Sql.Row.t) : DailyBookings :=
  {| booking_date := d;
     total_bookings := Z.of_nat (length (group d bs));
     total_guests := sum_guests (group d bs);
     confirmed_bookings :=
       Z.of_nat (length (List.filter (has_status Sql.confirmed) (group d bs)));
     cancelled_bookings :=
       Z.of_nat (length (List.filter (has_status Sql.cancelled) (group d bs))) |}.

(** One row per date that occurs, latest date first; the dates are
    distinct, so the order is determined. *)
Definition v_daily_bookings (bs : list Sql.Row.t) : list DailyBookings :=
  (fun d => aggregate d bs)
    <$> @merge_sort Z later_first later_first_dec
          (remove_dups (Sql.Row.booking_date <$> bs)).

End Reports.

(** The database with one more row in [bookings]. *)
Definition with_booking (db : Sql.Database) (b : Sql.Row.t) : Sql.Database :=
  {| Sql.tables := Sql.tables db; Sql.bookings := Sql.bookings db ++ [b] |}.

(** The database with only the rows of [bookings] that are pending or
    confirmed at the date and time. *)
Definition only_blocking (db : Sql.Database) (d t : Z) : Sql.Database :=
  {| Sql.tables := Sql.tables db;
     Sql.bookings :=
       List.filter
         (fun b => Sql.status_active (Sql.Row.status b)
                   && (Sql.Row.booking_date b =? d)
                   && (Sql.Row.booking_time b =? t))
         (Sql.bookings db) |}.

(** ** The model on the requests of [tests/booking.test.js] *)

Example parseInt_params :
  Js.parseInt "99999" = Js.Int 99999
  /\ Js.parseInt "invalid" = Js.NaN
  /\ Js.parseInt " 12px" = Js.Int 12
  /\ Js.parseInt "-0x1F" = Js.Int (-31).
Proof. repeat split. Qed.

(** The form sends the party size as the string of a [select]. *)
Example guests_as_string :
  statusCode (fst (createBooking clock initial
                     (with_guests (Js.str "4") validBooking))) = 201
  /\ statusCode (fst (createBooking clock initial
                        (with_guests (Js.str "15") validBooking))) = 400.
Proof. split; reflexivity. Qed.

Example lifecycle :
  fst (getBooking (posted 1) "1")
  = {| statusCode := 200; success := true;
       payload := PBooking None (newBooking clock 1 validBooking) |}
  /\ bookings (snd (deleteBooking (posted 1) "1")) = []
  /\ fst (getBooking (snd (deleteBooking (posted 1) "1")) "1")
     = failure 404 msg_not_found
  /\ fst (checkAvailability initial (Js.str "2026-02-15") Js.undefined)
     = failure 400 msg_date_time_required.
Proof. repeat split. Qed.

(** ** The array searches *)

Section Searches.
Context {A : Type} (p : A -> bool).

Lemma find_None_iff (l : list A) :
  List.find p l = None <-> forall x, x ∈ l -> p x = false.
Proof.
  induction l as [|a l IH]; simpl.
  - split; [intros _ x Hx; inversion Hx | reflexivity].
  - destruct (p a) eqn:Ha.
    + split; [discriminate|]. intros H.
      rewrite (H a) in Ha by apply list_elem_of_here. discriminate.
    + rewrite IH. split.
      * intros H x Hx. apply elem_of_cons in Hx as [->|Hx]; auto.
      * intros H x Hx. apply H. apply elem_of_cons. auto.
Qed.

Lemma findIndex_None_find (l : list A) :
  findIndex p l = None <-> List.find p l = None.
Proof.
  induction l as [|a l IH]; simpl; [tauto|].
  destruct (p a); [split; discriminate|].
  destruct (findIndex p l); simpl.
  - split; [discriminate|]. intros H. apply IH in H. discriminate.
  - split; [intros _; apply IH; reflexivity | reflexivity].
Qed.

Lemma findRef_None_find (l : list A) :
  findRef p l = None <-> List.find p l = None.
Proof.
  induction l as [|a l IH]; simpl; [tauto|].
  destruct (p a); [split; discriminate|].
  destruct (findRef p l); simpl.
  - split; [discriminate|]. intros H. apply IH in H. discriminate.
  - split; [intros _; apply IH; reflexivity | reflexivity].
Qed.

(** The reference found is the first element that satisfies [p], at the
    position [findIndex] reports. *)
Lemma findRef_Some (l : list A) (i : nat) (x : A) :
  findRef p l = Some (i, x) ->
  l !! i = Some x /\ p x = true /\ List.find p l = Some x
  /\ findIndex p l = Some i.
Proof.
  revert i. induction l as [|a l IH]; simpl; intros i H; [discriminate|].
  destruct (p a) eqn:Ha.
  - injection H as <- <-. auto.
  - destruct (findRef p l) as [[j y]|]; simpl in H; [|discriminate].
    injection H as <- <-.
    destruct (IH j eq_refl) as (H1 & H2 & H3 & H4).
    rewrite H4. auto.
Qed.

Lemma find_Some_findRef (l : list A) (x : A) :
  List.find p l = Some x -> exists i, findRef p l = Some (i, x).
Proof.
  induction l as [|a l IH]; simpl; [discriminate|].
  destruct (p a).
  - intros [= ->]. eauto.
  - intros H. destruct (IH H) as [i ->]. simpl. eauto.
Qed.
End Searches.

(** An id that no booking carries matches none of them. *)
Lemma id_matches_absent (n : Js.number) (l : list Booking.t) :
  (forall b, b ∈ l -> Js.Int (Booking.id b) <> n) ->
  forall b, b ∈ l -> id_matches n b = false.
Proof.
  intros H b Hb. specialize (H b Hb). unfold id_matches. simpl.
  destruct n as [|z|a d|neg]; try reflexivity.
  apply Z.eqb_neq. congruence.
Qed.

(** ** [POST /] *)

Lemma createBooking_incomplete now st body :
  incomplete body = true ->
  createBooking now st body = (failure 400 msg_all_required, st).
Proof. unfold createBooking, incomplete. intros ->. reflexivity. Qed.

Lemma createBooking_out_of_range now st body :
  incomplete body = false -> out_of_range body = true ->
  createBooking now st body = (failure 400 msg_guests_range, st).
Proof. unfold createBooking, incomplete, out_of_range. intros -> ->. reflexivity. Qed.

Lemma createBooking_passes now st body :
  incomplete body = false -> out_of_range body = false ->
  createBooking now st body
  = (created (newBooking now (nextId st) body), pushed now st body).
Proof. unfold createBooking, incomplete, out_of_range. intros -> ->. reflexivity. Qed.

Lemma validated_guards body :
  validated body = true -> incomplete body = false /\ out_of_range body = false.
Proof.
  unfold validated, out_of_range, Js.lt, Js.gt.
  intros [H1 H2]%andb_true_iff. apply negb_true_iff in H1.
  split; [exact H1|].
  destruct (Js.ToNumber (Body.guests body)) as [|n|a d|neg]; try discriminate.
  apply andb_true_iff in H2 as [Hlo Hhi].
  apply Z.leb_le in Hlo, Hhi. apply orb_false_iff.
  split; apply Z.ltb_ge; lia.
Qed.

Lemma createBooking_validated now st body :
  validated body = true ->
  createBooking now st body
  = (created (newBooking now (nextId st) body), pushed now st body).
Proof.
  intros [Hi Ho]%validated_guards. apply createBooking_passes; assumption.
Qed.


(** ** Reachable stores *)

Lemma handle_ids_fresh st rq : ids_fresh st -> ids_fresh (snd (handle st rq)).
Proof.
  intros [Hnd Hlt]. destruct rq as [|i|now body|now i body|i|qd qt]; simpl.
  - split; assumption.
  - unfold getBooking. destruct (List.find _ _); split; assumption.
  - destruct (incomplete body) eqn:Hi.
    { rewrite (createBooking_incomplete _ _ _ Hi). split; assumption. }
    destruct (out_of_range body) eqn:Ho.
    { rewrite (createBooking_out_of_range _ _ _ Hi Ho). split; assumption. }
    rewrite (createBooking_passes _ _ _ Hi Ho). unfold ids_fresh; simpl.
    rewrite fmap_app, NoDup_app, Forall_app. simpl. repeat split.
    + exact Hnd.
    + intros x Hx Hx'. apply list_elem_of_singleton in Hx'. subst x.
      apply list_elem_of_fmap in Hx as (b & Hb & Hin).
      rewrite Forall_forall in Hlt. specialize (Hlt b Hin). lia.
    + apply NoDup_singleton.
    + eapply Forall_impl; [exact Hlt|]. simpl. intros b Hb. lia.
    + repeat constructor. simpl. lia.
  - unfold updateBooking.
    destruct (findRef _ _) as [[k b]|] eqn:Href; [|split; assumption].
    destruct (findRef_Some _ _ _ _ Href) as (Hk & _).
    unfold ids_fresh; simpl. rewrite list_fmap_insert. simpl. split.
    + rewrite list_insert_id; [exact Hnd|]. rewrite list_lookup_fmap, Hk. reflexivity.
    + apply Forall_insert; [exact Hlt|]. simpl.
      rewrite Forall_forall in Hlt. apply Hlt.
      apply list_elem_of_lookup. eauto.
  - unfold deleteBooking.
    destruct (findIndex _ _) as [k|]; [|split; assumption].
    unfold ids_fresh; simpl. rewrite list_fmap_delete. split.
    + exact (sublist_NoDup _ _ Hnd (sublist_delete _ k)).
    + apply Forall_delete. exact Hlt.
  - unfold checkAvailability. destruct (_ || _); split; assumption.
Qed.

(** Every store that the router can be driven into keeps its ids distinct. *)
Lemma reachable_ids_fresh st : reachable st -> ids_fresh st.
Proof.
  intros [rqs <-]. unfold run.
  assert (H : ids_fresh initial) by (split; constructor).
  revert H. generalize initial.
  induction rqs as [|rq rqs IH]; intros st0 H0; simpl; [exact H0|].
  apply IH, handle_ids_fresh. exact H0.
Qed.










(** C6.  [POST /] never looks at the date: the request of the test
    "Should return 400 for past booking date" is stored and answered with
    [201], whatever the clock reads. *)
Theorem createBooking_accepts_past_date now st :
  createBooking now st (with_date (Js.str "2020-01-01") validBooking)
  = (created (newBooking now (nextId st)
                (with_date (Js.str "2020-01-01") validBooking)),
     pushed now st (with_date (Js.str "2020-01-01") validBooking)).
Proof. apply createBooking_validated. reflexivity. Qed.

(** C7.  A party size of [0] is falsy, so the first guard answers it with
    the message for missing fields and the guard on the range is never
    reached. *)
Theorem createBooking_zero_guests now st :
  createBooking now st (with_guests (Js.num (Js.Int 0)) validBooking)
  = (failure 400 msg_all_required, st)
  /\ violations (failure 400 msg_all_required) = [MissingField]
  /\ msg_all_required <> msg_guests_range.
Proof.
  split; [apply createBooking_incomplete; reflexivity|].
  split; [reflexivity|]. discriminate.
Qed.

(** The other party sizes behave as the specification says. *)
Lemma createBooking_guest_bounds now st (n : Z) :
  (1 <= n <= 10 ->
   createBooking now st (with_guests (Js.num (Js.Int n)) validBooking)
   = (created (newBooking now (nextId st)
                 (with_guests (Js.num (Js.Int n)) validBooking)),
      pushed now st (with_guests (Js.num (Js.Int n)) validBooking)))
  /\ (n < 0 \/ 10 < n ->
      createBooking now st (with_guests (Js.num (Js.Int n)) validBooking)
      = (failure 400 msg_guests_range, st)).
Proof.
  split; intros Hn.
  - apply createBooking_validated.
    unfold validated, incomplete, Js.not. cbn.
    destruct (Z.eqb_spec n 0), (Z.leb_spec 1 n), (Z.leb_spec n 10);
      try lia; reflexivity.
  - apply createBooking_out_of_range;
      unfold incomplete, out_of_range, Js.not, Js.lt, Js.gt; cbn;
      destruct (Z.eqb_spec n 0), (Z.ltb_spec n 1), (Z.ltb_spec 10 n);
      try lia; reflexivity.
Qed.

Lemma blank_falsy v : blank v = true -> Js.not v = true.
Proof.
  destruct v as [| |b|n|x]; simpl; try discriminate; try reflexivity.
  unfold Js.not. simpl. intros ->. reflexivity.
Qed.

Lemma lacks_field_incomplete body : lacks_field body = true -> incomplete body = true.
Proof.
  unfold lacks_field, incomplete. intros H.
  repeat (apply orb_true_iff in H as [H|H]);
    apply blank_falsy in H; rewrite H; rewrite ?orb_true_r; reflexivity.
Qed.

(** C8 (amended).  A refusal of [POST /] carries one message, for the first
    guard that fires: the message for missing fields when a required
    field was left out (missing, [null] or the empty string), whatever the
    party size is; the message for the party size when all six fields are
    truthy and the party size reads as a number below 1 or above 10.  No
    response names more than one violation. *)
Theorem createBooking_reports_one_violation now st body :
  (lacks_field body = true ->
   createBooking now st body = (failure 400 msg_all_required, st)
   /\ violations (fst (createBooking now st body)) = [MissingField])
  /\ (incomplete body = false -> out_of_range body = true ->
      createBooking now st body = (failure 400 msg_guests_range, st)
      /\ violations (fst (createBooking now st body)) = [InvalidPartySize])
  /\ (length (violations (fst (createBooking now st body))) <= 1)%nat
  /\ (rejected (fst (createBooking now st body)) = true ->
      length (violations (fst (createBooking now st body))) = 1%nat).
Proof.
  destruct (incomplete body) eqn:Hi.
  - rewrite (createBooking_incomplete _ _ _ Hi).
    repeat split; try discriminate; cbn; auto.
  - assert (Hl : lacks_field body = false).
    { destruct (lacks_field body) eqn:Hl; [|reflexivity].
      rewrite (lacks_field_incomplete _ Hl) in Hi. discriminate. }
    rewrite Hl. destruct (out_of_range body) eqn:Ho.
    + rewrite (createBooking_out_of_range _ _ _ Hi Ho).
      repeat split; try discriminate; cbn; auto.
    + rewrite (createBooking_passes _ _ _ Hi Ho).
      repeat split; try discriminate; cbn; auto with lia.
Qed.

(** Party sizes sent as strings are read as numbers by the second guard,
    whatever their notation. *)
Example guests_numeric_strings :
  createBooking clock initial (with_guests (Js.str "0.5") validBooking)
  = (failure 400 msg_guests_range, initial)
  /\ createBooking clock initial (with_guests (Js.str "1e2") validBooking)
     = (failure 400 msg_guests_range, initial)
  /\ createBooking clock initial (with_guests (Js.str "0x0") validBooking)
     = (failure 400 msg_guests_range, initial)
  /\ createBooking clock initial (with_guests (Js.str "Infinity") validBooking)
     = (failure 400 msg_guests_range, initial)
  /\ createBooking clock initial (with_guests (Js.num (Js.Frac 1 2)) validBooking)
     = (failure 400 msg_guests_range, initial)
  /\ statusCode (fst (createBooking clock initial
                        (with_guests (Js.str "1e1") validBooking))) = 201
  /\ statusCode (fst (createBooking clock initial
                        (with_guests (Js.str "abc") validBooking))) = 201.
Proof. repeat split. Qed.

(** C8 (as stated) fails: a request without its phone and with fifteen
    guests violates two rules and the response names the first only. *)
Lemma missing_phone_hides_party_size :
  spec_missing_field
    (without_phone (with_guests (Js.num (Js.Int 15)) validBooking)) = true
  /\ spec_invalid_party_size
       (without_phone (with_guests (Js.num (Js.Int 15)) validBooking)) = true
  /\ violations
       (fst (createBooking clock initial
               (without_phone (with_guests (Js.num (Js.Int 15)) validBooking))))
     = [MissingField]
  /\ ~ reports_every_violation
         (without_phone (with_guests (Js.num (Js.Int 15)) validBooking))
         (fst (createBooking clock initial
                 (without_phone (with_guests (Js.num (Js.Int 15)) validBooking)))).
Proof.
  split; [reflexivity|]. split; [reflexivity|]. split; [reflexivity|].
  intros [_ H]. specialize (H eq_refl). vm_compute in H.
  apply list_elem_of_singleton in H. discriminate.
Qed.

(** ** [GET /:id], [PUT /:id] and [DELETE /:id] *)

Lemma updateBooking_found now st idParam body i b :
  findRef (id_matches (Js.parseInt idParam)) (bookings st) = Some (i, b) ->
  updateBooking now st idParam body
  = (updated (applyPatch now body b),
     {| bookings := <[i := applyPatch now body b]> (bookings st);
        nextId := nextId st |}).
Proof. unfold updateBooking. intros ->. reflexivity. Qed.

Lemma assign_if_patched v old : patched v old (assign_if v old).
Proof. unfold patched, assign_if. destruct (Js.ToBoolean v); split; congruence. Qed.

(** C9.  An id that no booking of the store carries is answered with [404]
    by [GET /:id], [PUT /:id] and [DELETE /:id], and the store stays as it
    was. *)
Theorem unknown_id_not_found now st idParam body :
  (forall b, b ∈ bookings st -> Js.Int (Booking.id b) <> Js.parseInt idParam) ->
  getBooking st idParam = (failure 404 msg_not_found, st)
  /\ updateBooking now st idParam body = (failure 404 msg_not_found, st)
  /\ deleteBooking st idParam = (failure 404 msg_not_found, st).
Proof.
  intros H.
  assert (Hfind : List.find (id_matches (Js.parseInt idParam)) (bookings st) = None).
  { apply find_None_iff. apply id_matches_absent. exact H. }
  unfold getBooking, updateBooking, deleteBooking.
  rewrite Hfind.
  rewrite (proj2 (findRef_None_find _ _) Hfind).
  rewrite (proj2 (findIndex_None_find _ _) Hfind).
  auto.
Qed.

Lemma unknown_id_not_found_witness :
  getBooking (posted 1) "99999" = (failure 404 msg_not_found, posted 1)
  /\ updateBooking clock (posted 1) "99999" (status_only (Js.str "cancelled"))
     = (failure 404 msg_not_found, posted 1)
  /\ deleteBooking (posted 1) "99999" = (failure 404 msg_not_found, posted 1).
Proof.
  apply (unknown_id_not_found clock (posted 1) "99999").
  intros b Hb. vm_compute in Hb.
  apply list_elem_of_singleton in Hb. subst b. vm_compute. discriminate.
Defined.

(** C10.  On a booking that exists, [PUT /:id] stores every truthy field
    of the patch as it is, keeps the old content where the patch is falsy,
    stamps [updatedAt], and touches nothing else in the store. *)
Theorem updateBooking_applies_patch now st idParam body b :
  List.find (id_matches (Js.parseInt idParam)) (bookings st) = Some b ->
  exists i b',
    bookings st !! i = Some b
    /\ updateBooking now st idParam body
       = (updated b',
          {| bookings := <[i := b']> (bookings st); nextId := nextId st |})
    /\ patched (Body.date body) (Booking.date b) (Booking.date b')
    /\ patched (Body.time body) (Booking.time b) (Booking.time b')
    /\ patched (Body.guests body) (Booking.guests b) (Booking.guests b')
    /\ patched (Body.name body) (Booking.name b) (Booking.name b')
    /\ patched (Body.email body) (Booking.email b) (Booking.email b')
    /\ patched (Body.phone body) (Booking.phone b) (Booking.phone b')
    /\ patched (Body.status body) (Booking.status b) (Booking.status b')
    /\ Booking.updatedAt b' = Some now
    /\ Booking.id b' = Booking.id b
    /\ Booking.createdAt b' = Booking.createdAt b
    /\ (<[i := b']> (bookings st)) !! i = Some b'
    /\ (forall j, j <> i -> (<[i := b']> (bookings st)) !! j = bookings st !! j)
    /\ length (<[i := b']> (bookings st)) = length (bookings st)
    /\ Js.ToBoolean Js.undefined = false
    /\ Js.ToBoolean (Js.str "") = false
    /\ Js.ToBoolean (Js.num (Js.Int 0)) = false
    /\ (forall n, n <> 0 -> Js.ToBoolean (Js.num (Js.Int n)) = true)
    /\ (forall s, s <> ""%string -> Js.ToBoolean (Js.str s) = true).
Proof.
  intros Hfind.
  destruct (find_Some_findRef _ _ _ Hfind) as [i Href].
  destruct (findRef_Some _ _ _ _ Href) as (Hi & _).
  exists i, (applyPatch now body b).
  split; [exact Hi|].
  split; [apply updateBooking_found; exact Href|].
  cbn [applyPatch Booking.date Booking.time Booking.guests Booking.name
       Booking.email Booking.phone Booking.status Booking.updatedAt
       Booking.id Booking.createdAt].
  repeat (split; [apply assign_if_patched|]).
  repeat (split; [reflexivity|]).
  split. { apply list_lookup_insert_eq. eapply lookup_lt_Some; exact Hi. }
  split. { intros j Hj. apply list_lookup_insert_ne. congruence. }
  split; [apply length_insert|].
  repeat (split; [reflexivity|]).
  split.
  - intros n Hn. cbn. apply negb_true_iff, Z.eqb_neq. exact Hn.
  - intros s Hs. cbn. apply negb_true_iff, String.eqb_neq. exact Hs.
Qed.

Lemma updateBooking_applies_patch_witness :
  exists i b',
    bookings (posted 1) !! i = Some (newBooking clock 1 validBooking)
    /\ updateBooking clock (posted 1) "1"
         (with_guests (Js.num (Js.Int 15)) (status_only (Js.str "whatever")))
       = (updated b',
          {| bookings := <[i := b']> (bookings (posted 1));
             nextId := nextId (posted 1) |})
    /\ Booking.guests b' = Js.num (Js.Int 15)
    /\ Booking.status b' = Js.str "whatever"
    /\ Booking.date b' = Js.str "2026-02-15".
Proof.
  destruct (updateBooking_applies_patch clock (posted 1) "1"
              (with_guests (Js.num (Js.Int 15)) (status_only (Js.str "whatever")))
              (newBooking clock 1 validBooking) eq_refl)
    as (i & b' & Hi & Hu & Hd & _ & Hg & _ & _ & _ & Hs & _).
  exists i, b'. split; [exact Hi|]. split; [exact Hu|].
  split; [exact (proj1 Hg eq_refl)|].
  split; [exact (proj1 Hs eq_refl)|].
  exact (proj2 Hd eq_refl).
Defined.

(** C3 (amended).  A patch that carries a truthy [status] only is stored
    on any booking that exists, whatever its current status; the other
    fields keep their content and the response is a success. *)
Theorem updateBooking_status_unrestricted now st idParam b s :
  List.find (id_matches (Js.parseInt idParam)) (bookings st) = Some b ->
  Js.ToBoolean s = true ->
  exists i b',
    bookings st !! i = Some b
    /\ updateBooking now st idParam (status_only s)
       = (updated b',
          {| bookings := <[i := b']> (bookings st); nextId := nextId st |})
    /\ Booking.status b' = s
    /\ Booking.date b' = Booking.date b
    /\ Booking.time b' = Booking.time b
    /\ Booking.guests b' = Booking.guests b
    /\ Booking.name b' = Booking.name b
    /\ Booking.email b' = Booking.email b
    /\ Booking.phone b' = Booking.phone b
    /\ Booking.id b' = Booking.id b
    /\ rejected (updated b') = false.
Proof.
  intros Hfind Hs.
  destruct (find_Some_findRef _ _ _ Hfind) as [i Href].
  destruct (findRef_Some _ _ _ _ Href) as (Hi & _).
  exists i, (applyPatch now (status_only s) b).
  split; [exact Hi|].
  split; [apply updateBooking_found; exact Href|].
  cbn. unfold assign_if. rewrite Hs. cbn. repeat split.
Qed.

Lemma updateBooking_status_unrestricted_witness :
  exists i b',
    bookings cancelled_store !! i
    = Some (applyPatch clock (status_only (Js.str "cancelled"))
              (newBooking clock 1 validBooking))
    /\ updateBooking clock cancelled_store "1" (status_only (Js.str "confirmed"))
       = (updated b',
          {| bookings := <[i := b']> (bookings cancelled_store);
             nextId := nextId cancelled_store |})
    /\ Booking.status b' = Js.str "confirmed".
Proof.
  destruct (updateBooking_status_unrestricted clock cancelled_store "1"
              (applyPatch clock (status_only (Js.str "cancelled"))
                 (newBooking clock 1 validBooking))
              (Js.str "confirmed") eq_refl eq_refl)
    as (i & b' & Hi & Hu & Hs & _).
  exists i, b'. auto.
Defined.

(** C3 (as stated) fails: the booking with id 1 is cancelled, cancelled to
    confirmed is not in the transition table, and [PUT /1] with
    [{status: 'confirmed'}] succeeds and stores the new status. *)
Lemma cancelled_booking_reconfirmed :
  (Booking.status <$> List.find (id_matches (Js.parseInt "1"))
                        (bookings cancelled_store))
  = Some (Js.str "cancelled")
  /\ spec_legal_transition "cancelled" "confirmed" = false
  /\ ~ guards_transition clock cancelled_store "1" "cancelled" "confirmed"
  /\ (Booking.status <$> List.find (id_matches (Js.parseInt "1"))
        (bookings (snd (updateBooking clock cancelled_store "1"
                          (status_only (Js.str "confirmed"))))))
     = Some (Js.str "confirmed").
Proof.
  split; [reflexivity|]. split; [reflexivity|]. split; [|reflexivity].
  intros H. destruct (H eq_refl) as [H1 _]. vm_compute in H1. discriminate.
Qed.

(** ** [GET /check/availability] *)

Lemma strict_eq_str v s : Js.strict_eq v (Js.str s) = true -> v = Js.str s.
Proof.
  destruct v as [| | |[| | |]|s']; simpl; try discriminate.
  intros H. apply String.eqb_eq in H. congruence.
Qed.

Lemma occupies_active qdate qtime b :
  Booking.status b <> Js.str "pending" ->
  occupies qdate qtime b = at_slot qdate qtime b && active b.
Proof.
  intros Hp. unfold occupies, at_slot, active.
  destruct (Js.strict_eq (Booking.status b) (Js.str "pending")) eqn:E.
  - apply strict_eq_str in E. contradiction.
  - reflexivity.
Qed.

(** A duplicate-free list drawn from [tbls] is no longer than [tbls]. *)
Lemma held_tables_bounded (table_of : Booking.t -> Z) (tbls : list Z)
  qdate qtime bs :
  (forall b, table_of b ∈ tbls) ->
  (length (tables_held table_of qdate qtime bs) <= length tbls)%nat.
Proof.
  intros H. apply submseteq_length, NoDup_submseteq.
  - apply NoDup_remove_dups.
  - intros x Hx. apply elem_of_remove_dups, list_elem_of_fmap in Hx.
    destruct Hx as (b & -> & _). apply H.
Qed.

(** C4 (amended).  For a non-empty date and time, and a store in which no
    booking at that slot is pending, the summary counts the bookings (not
    the tables) at exactly that slot whose status is pending or confirmed,
    out of the constant 15; the difference may be negative. *)
Theorem checkAvailability_counts_bookings st qdate qtime :
  Js.ToBoolean qdate = true -> Js.ToBoolean qtime = true ->
  (forall b, b ∈ bookings st -> at_slot qdate qtime b = true ->
             Booking.status b <> Js.str "pending") ->
  checkAvailability st qdate qtime
  = ({| statusCode := 200; success := true;
        payload := PSummary
          {| s_date := qdate; s_time := qtime;
             totalTables := 15;
             occupiedTables :=
               Z.of_nat (length (List.filter
                 (fun b => at_slot qdate qtime b && active b) (bookings st)));
             availableTables :=
               15 - Z.of_nat (length (List.filter
                 (fun b => at_slot qdate qtime b && active b) (bookings st)));
             isAvailable :=
               0 <? 15 - Z.of_nat (length (List.filter
                 (fun b => at_slot qdate qtime b && active b) (bookings st)))
          |} |}, st).
Proof.
  intros Hd Ht Hp. unfold checkAvailability, Js.not. rewrite Hd, Ht. cbn [negb orb].
  assert (E : List.filter (occupies qdate qtime) (bookings st)
              = List.filter (fun b => at_slot qdate qtime b && active b) (bookings st)).
  { apply List.filter_ext_in. intros b Hb. apply list_elem_of_In in Hb.
    destruct (at_slot qdate qtime b) eqn:Hs.
    - rewrite (occupies_active _ _ _ (Hp b Hb Hs)), Hs. reflexivity.
    - unfold occupies. fold (at_slot qdate qtime b). rewrite Hs. reflexivity. }
  rewrite E. reflexivity.
Qed.

Lemma checkAvailability_counts_bookings_witness :
  occupiedTables
    match payload (fst (checkAvailability (posted 16)
                          (Js.str "2026-02-15") (Js.str "19:00"))) with
    | PSummary s => s
    | _ => mkSummary Js.undefined Js.undefined 0 0 0 false
    end
  = 16.
Proof.
  rewrite (checkAvailability_counts_bookings (posted 16)
             (Js.str "2026-02-15") (Js.str "19:00") eq_refl eq_refl).
  - reflexivity.
  - intros b Hb _. vm_compute in Hb.
    repeat (apply elem_of_cons in Hb as [->|Hb]; [discriminate|]).
    inversion Hb.
Defined.

(** C4 (as stated) fails: after sixteen bookings for one slot the summary
    reports sixteen occupied tables out of fifteen and minus one available,
    which is the number of tables with an active booking under no
    assignment of the bookings to fifteen tables. *)
Lemma occupiedTables_exceeds_totalTables :
  payload (fst (checkAvailability (posted 16)
                  (Js.str "2026-02-15") (Js.str "19:00")))
  = PSummary {| s_date := Js.str "2026-02-15"; s_time := Js.str "19:00";
                totalTables := 15; occupiedTables := 16;
                availableTables := -1; isAvailable := false |}
  /\ ~ exists (tbls : list Z) (table_of : Booking.t -> Z),
         length tbls = 15%nat
         /\ (forall b, table_of b ∈ tbls)
         /\ 16 = Z.of_nat (length (tables_held table_of
                    (Js.str "2026-02-15") (Js.str "19:00")
                    (bookings (posted 16)))).
Proof.
  split; [reflexivity|].
  intros (tbls & table_of & Hlen & Hin & Heq).
  pose proof (held_tables_bounded table_of tbls
                (Js.str "2026-02-15") (Js.str "19:00")
                (bookings (posted 16)) Hin) as Hb.
  lia.
Qed.

(** ** [check_table_availability] *)

Lemma blocks_spec d t tb b :
  Sql.blocks d t tb b = true
  <-> Sql.Row.table_id b = Some (Sql.Table.id tb)
      /\ Sql.Row.booking_date b = d
      /\ Sql.Row.booking_time b = t
      /\ (Sql.Row.status b = Some Sql.confirmed
          \/ Sql.Row.status b = Some Sql.pending).
Proof.
  unfold Sql.blocks. rewrite !andb_true_iff, !Z.eqb_eq.
  assert (H1 : match Sql.Row.table_id b with
               | Some i => i =? Sql.Table.id tb
               | None => false
               end = true
               <-> Sql.Row.table_id b = Some (Sql.Table.id tb)).
  { destruct (Sql.Row.table_id b) as [i|]; [|split; discriminate].
    rewrite Z.eqb_eq. split; congruence. }
  assert (H2 : Sql.status_active (Sql.Row.status b) = true
               <-> Sql.Row.status b = Some Sql.confirmed
                   \/ Sql.Row.status b = Some Sql.pending).
  { destruct (Sql.Row.status b) as [[]|]; simpl; split;
      intros H; try discriminate; auto; destruct H; discriminate. }
  rewrite H1, H2. tauto.
Qed.

Lemma qualifies_spec db d t p tb :
  Sql.qualifies db d t p tb = true
  <-> p <= Sql.Table.capacity tb
      /\ Sql.Table.is_available tb = Some true
      /\ forall b, b ∈ Sql.bookings db ->
           ~ (Sql.Row.table_id b = Some (Sql.Table.id tb)
              /\ Sql.Row.booking_date b = d
              /\ Sql.Row.booking_time b = t
              /\ (Sql.Row.status b = Some Sql.confirmed
                  \/ Sql.Row.status b = Some Sql.pending)).
Proof.
  unfold Sql.qualifies. rewrite !andb_true_iff, Z.leb_le, negb_true_iff.
  assert (H1 : match Sql.Table.is_available tb with
               | Some true => true
               | _ => false
               end = true <-> Sql.Table.is_available tb = Some true).
  { destruct (Sql.Table.is_available tb) as [[]|]; split; congruence. }
  assert (H2 : existsb (Sql.blocks d t tb) (Sql.bookings db) = false
               <-> forall b, b ∈ Sql.bookings db ->
                     ~ (Sql.Row.table_id b = Some (Sql.Table.id tb)
                        /\ Sql.Row.booking_date b = d
                        /\ Sql.Row.booking_time b = t
                        /\ (Sql.Row.status b = Some Sql.confirmed
                            \/ Sql.Row.status b = Some Sql.pending))).
  { rewrite <- not_true_iff_false, existsb_exists. split.
    - intros H b Hb Hblk. apply H. exists b. split.
      + apply list_elem_of_In. exact Hb.
      + apply blocks_spec. exact Hblk.
    - intros H (b & Hb & Hblk). apply (H b).
      + apply list_elem_of_In. exact Hb.
      + apply blocks_spec. exact Hblk. }
  rewrite H1, H2. tauto.
Qed.

Lemma insert_by_capacity_perm r l : Sql.insert_by_capacity r l ≡ₚ r :: l.
Proof.
  induction l as [|x l IH]; simpl; [reflexivity|].
  destruct (Sql.capacity r <=? Sql.capacity x); [reflexivity|].
  rewrite IH. apply perm_swap.
Qed.

Lemma order_by_capacity_perm l : Sql.order_by_capacity l ≡ₚ l.
Proof.
  induction l as [|x l IH]; simpl; [reflexivity|].
  rewrite insert_by_capacity_perm. unfold Sql.order_by_capacity in IH.
  rewrite IH. reflexivity.
Qed.

Lemma insert_by_capacity_sorted r l :
  StronglySorted Sql.capacity_le l ->
  StronglySorted Sql.capacity_le (Sql.insert_by_capacity r l).
Proof.
  induction 1 as [|x l Hs IH Hx]; simpl.
  - repeat constructor.
  - destruct (Z.leb_spec (Sql.capacity r) (Sql.capacity x)) as [Hle|Hgt].
    + constructor; [constructor; assumption|].
      constructor; [exact Hle|].
      eapply Forall_impl; [exact Hx|].
      unfold Sql.capacity_le. intros y Hy. lia.
    + constructor; [exact IH|].
      rewrite insert_by_capacity_perm. constructor; [|exact Hx].
      unfold Sql.capacity_le. lia.
Qed.

Lemma order_by_capacity_sorted l :
  StronglySorted Sql.capacity_le (Sql.order_by_capacity l).
Proof.
  induction l as [|x l IH]; simpl; [constructor|].
  apply insert_by_capacity_sorted. exact IH.
Qed.

(** C5 (amended).  The executor produces rows that the query admits, and
    any rows that the query admits are exactly the tables with capacity at
    least [p_guests], [is_available] true and no pending or confirmed
    booking at the date and time, in ascending order of capacity, so the
    first row has the smallest capacity that fits. *)
Theorem check_table_availability_rows db d t p :
  Sql.returns db d t p (Sql.check_table_availability db d t p)
  /\ forall rows, Sql.returns db d t p rows ->
       (forall r, r ∈ rows <->
          exists tb, tb ∈ Sql.tables db /\ r = Sql.select_list tb
            /\ p <= Sql.Table.capacity tb
            /\ Sql.Table.is_available tb = Some true
            /\ forall b, b ∈ Sql.bookings db ->
                 ~ (Sql.Row.table_id b = Some (Sql.Table.id tb)
                    /\ Sql.Row.booking_date b = d
                    /\ Sql.Row.booking_time b = t
                    /\ (Sql.Row.status b = Some Sql.confirmed
                        \/ Sql.Row.status b = Some Sql.pending)))
       /\ StronglySorted Sql.capacity_le rows
       /\ (forall r0 rest, rows = r0 :: rest ->
             forall r, r ∈ rows -> Sql.capacity r0 <= Sql.capacity r)
       /\ length rows
          = length (List.filter (Sql.qualifies db d t p) (Sql.tables db)).
Proof.
  split.
  - split; [apply order_by_capacity_perm | apply order_by_capacity_sorted].
  - intros rows [Hperm Hsorted]. repeat split.
    + intros Hr. rewrite Hperm in Hr.
      apply list_elem_of_fmap in Hr as (tb & -> & Htb).
      apply list_elem_of_In, filter_In in Htb as [Hin Hq].
      exists tb. split; [apply list_elem_of_In; exact Hin|].
      split; [reflexivity|]. apply qualifies_spec. exact Hq.
    + intros (tb & Hin & -> & Hq). rewrite Hperm.
      apply list_elem_of_fmap. exists tb. split; [reflexivity|].
      apply list_elem_of_In, filter_In. split.
      * apply list_elem_of_In. exact Hin.
      * apply qualifies_spec. exact Hq.
    + exact Hsorted.
    + intros r0 rest -> r Hr. inversion Hsorted as [|? ? _ Hall]; subst.
      apply elem_of_cons in Hr as [->|Hr]; [unfold Sql.capacity_le; lia|].
      rewrite Forall_forall in Hall. apply (Hall r Hr).
    + rewrite Hperm, length_fmap. reflexivity.
Qed.

(** C5 (as stated) fails: on two tables of equal capacity the query admits,
    and the executor returns, the rows with table 2 before table 1. *)
Lemma ties_not_broken_by_id :
  Sql.check_table_availability Sql.reordered_heap 0 0 2
  = [ Sql.mkCandidate 2 "T02" 2; Sql.mkCandidate 1 "T01" 2 ]
  /\ Sql.returns Sql.reordered_heap 0 0 2
       [ Sql.mkCandidate 2 "T02" 2; Sql.mkCandidate 1 "T01" 2 ]
  /\ ~ StronglySorted Sql.capacity_then_id
         [ Sql.mkCandidate 2 "T02" 2; Sql.mkCandidate 1 "T01" 2 ].
Proof.
  split; [reflexivity|]. split.
  - split; [reflexivity|].
    repeat constructor; unfold Sql.capacity_le; simpl; lia.
  - intros H. inversion H as [|? ? _ Hall]; subst.
    inversion Hall as [|? ? Hlt _]; subst.
    unfold Sql.capacity_then_id in Hlt. simpl in Hlt. lia.
Qed.


(** ** Invariants of the reachable stores *)

Lemma StronglySorted_delete {A : Type} (R : A -> A -> Prop) (l : list A) :
  forall k, StronglySorted R l -> StronglySorted R (delete k l).
Proof.
  induction l as [|x l IH]; intros k Hs; [destruct k; exact Hs|].
  apply StronglySorted_cons in Hs as [Hx Hs].
  destruct k as [|k]; simpl; [exact Hs|].
  apply StronglySorted_cons. split; [apply Forall_delete; exact Hx | apply IH; exact Hs].
Qed.

Lemma reachable_initial : reachable initial.
Proof. exists []. reflexivity. Qed.

Lemma reachable_step st rq : reachable st -> reachable (snd (handle st rq)).
Proof.
  intros [rqs <-]. exists (rqs ++ [rq]). unfold run. rewrite foldl_app. reflexivity.
Qed.

Lemma reachable_createAll nows : forall st body,
  reachable st -> reachable (snd (createAll nows st body)).
Proof.
  induction nows as [|now nows IH]; intros st body Hst; simpl; [exact Hst|].
  pose proof (reachable_step st (Post now body) Hst) as Hstep.
  simpl in Hstep. destruct (createBooking now st body) as [r st1].
  specialize (IH st1 body Hstep).
  destruct (createAll nows st1 body). exact IH.
Qed.

Lemma reachable_posted n : reachable (posted n).
Proof. apply reachable_createAll, reachable_initial. Qed.

Lemma handle_ids_ascending st rq :
  ids_ascending st -> ids_ascending (snd (handle st rq)).
Proof.
  intros (Hs & Hb & H1). destruct rq as [|i|now body|now i body|i|qd qt]; simpl.
  - repeat split; assumption.
  - unfold getBooking. destruct (List.find _ _); repeat split; assumption.
  - destruct (incomplete body) eqn:Hi.
    { rewrite (createBooking_incomplete _ _ _ Hi). repeat split; assumption. }
    destruct (out_of_range body) eqn:Ho.
    { rewrite (createBooking_out_of_range _ _ _ Hi Ho). repeat split; assumption. }
    rewrite (createBooking_passes _ _ _ Hi Ho). unfold ids_ascending; simpl.
    rewrite fmap_app, Forall_app. simpl. split; [|split; [split|lia]].
    + apply StronglySorted_app_2; [|exact Hs|repeat constructor].
      intros x1 x2 Hx1 Hx2. apply list_elem_of_singleton in Hx2. subst x2.
      apply list_elem_of_fmap in Hx1 as (b & -> & Hin).
      rewrite Forall_forall in Hb. specialize (Hb b Hin). lia.
    + eapply Forall_impl; [exact Hb|]. simpl. intros b Hlt. lia.
    + repeat constructor; simpl; lia.
  - unfold updateBooking.
    destruct (findRef _ _) as [[k b]|] eqn:Href; [|repeat split; assumption].
    destruct (findRef_Some _ _ _ _ Href) as (Hk & _).
    unfold ids_ascending; simpl. rewrite list_fmap_insert. simpl.
    split; [|split; [|exact H1]].
    + rewrite list_insert_id; [exact Hs|]. rewrite list_lookup_fmap, Hk. reflexivity.
    + apply Forall_insert; [exact Hb|]. simpl.
      rewrite Forall_forall in Hb. apply Hb.
      apply list_elem_of_lookup. eauto.
  - unfold deleteBooking.
    destruct (findIndex _ _) as [k|]; [|repeat split; assumption].
    unfold ids_ascending; simpl. rewrite list_fmap_delete.
    split; [|split; [|exact H1]].
    + apply StronglySorted_delete. exact Hs.
    + apply Forall_delete. exact Hb.
  - unfold checkAvailability. destruct (_ || _); repeat split; assumption.
Qed.

(** X1.  In every store that the router reaches from its initial one the
    array lists the bookings in the order of their ids: the ids grow
    strictly along the array (so they are distinct), start at 1 and stay
    below [nextId]. *)
Theorem reachable_ids_ascending st :
  reachable st ->
  StronglySorted Z.lt (Booking.id <$> bookings st)
  /\ NoDup (Booking.id <$> bookings st)
  /\ Forall (fun b => 1 <= Booking.id b < nextId st) (bookings st).
Proof.
  intros Hr.
  assert (Ha : ids_ascending st).
  { destruct Hr as [rqs <-]. unfold run.
    assert (H : ids_ascending initial) by (repeat split; [constructor|constructor|simpl; lia]).
    revert H. generalize initial.
    induction rqs as [|rq rqs IH]; intros st0 H0; simpl; [exact H0|].
    apply IH, handle_ids_ascending. exact H0. }
  destruct Ha as (Hs & Hb & _).
  split; [exact Hs|]. split; [|exact Hb].
  apply (reachable_ids_fresh st Hr).
Qed.

Lemma reachable_ids_ascending_witness :
  StronglySorted Z.lt (Booking.id <$> bookings (posted 3))
  /\ NoDup (Booking.id <$> bookings (posted 3))
  /\ Forall (fun b => 1 <= Booking.id b < nextId (posted 3)) (bookings (posted 3)).
Proof. exact (reachable_ids_ascending (posted 3) (reachable_posted 3)). Defined.

Lemma assign_if_truthy v old :
  Js.ToBoolean old = true -> Js.ToBoolean (assign_if v old) = true.
Proof. unfold assign_if. destruct (Js.ToBoolean v) eqn:E; auto. Qed.

Lemma handle_well_filled st rq :
  Forall (fun b => well_filled b = true) (bookings st) ->
  Forall (fun b => well_filled b = true) (bookings (snd (handle st rq))).
Proof.
  intros Hw. destruct rq as [|i|now body|now i body|i|qd qt]; simpl.
  - exact Hw.
  - unfold getBooking. destruct (List.find _ _); exact Hw.
  - destruct (incomplete body) eqn:Hi.
    { rewrite (createBooking_incomplete _ _ _ Hi). exact Hw. }
    destruct (out_of_range body) eqn:Ho.
    { rewrite (createBooking_out_of_range _ _ _ Hi Ho). exact Hw. }
    rewrite (createBooking_passes _ _ _ Hi Ho). simpl.
    apply Forall_app. split; [exact Hw|]. constructor; [|constructor].
    unfold incomplete, Js.not in Hi. unfold well_filled. simpl.
    repeat (apply orb_false_iff in Hi as [Hi ?]).
    repeat match goal with H : negb _ = false |- _ => apply negb_false_iff in H; rewrite H end.
    reflexivity.
  - unfold updateBooking.
    destruct (findRef _ _) as [[k b]|] eqn:Href; [|exact Hw].
    destruct (findRef_Some _ _ _ _ Href) as (Hk & _). simpl.
    apply Forall_insert; [exact Hw|].
    rewrite Forall_forall in Hw.
    assert (Hb : well_filled b = true) by (apply Hw, list_elem_of_lookup; eauto).
    unfold well_filled in *. simpl.
    repeat (apply andb_true_iff in Hb as [Hb ?]).
    rewrite !assign_if_truthy by assumption. reflexivity.
  - unfold deleteBooking.
    destruct (findIndex _ _) as [k|]; [|exact Hw]. simpl.
    apply Forall_delete. exact Hw.
  - unfold checkAvailability. destruct (_ || _); exact Hw.
Qed.

(** X2.  No request empties a stored field: in every reachable store each
    booking has a truthy date, time, party size, name, email, phone and
    status, because [POST /] demands them and [PUT /:id] overwrites a field
    with truthy values only. *)
Theorem reachable_well_filled st :
  reachable st -> Forall (fun b => well_filled b = true) (bookings st).
Proof.
  intros [rqs <-]. unfold run.
  assert (H : Forall (fun b => well_filled b = true) (bookings initial)) by constructor.
  revert H. generalize initial.
  induction rqs as [|rq rqs IH]; intros st0 H0; simpl; [exact H0|].
  apply IH, handle_well_filled. exact H0.
Qed.

Lemma reachable_well_filled_witness :
  Forall (fun b => well_filled b = true) (bookings cancelled_store).
Proof.
  apply reachable_well_filled.
  exact (reachable_step (posted 1)
           (Put clock "1" (status_only (Js.str "cancelled")))
           (reachable_posted 1)).
Defined.

(** ** How the routes compose *)

Lemma find_app {A : Type} (p : A -> bool) (l1 l2 : list A) :
  List.find p (l1 ++ l2)
  = match List.find p l1 with Some x => Some x | None => List.find p l2 end.
Proof.
  induction l1 as [|x l1 IH]; simpl; [reflexivity|].
  destruct (p x); [reflexivity | exact IH].
Qed.

Lemma findIndex_Some {A : Type} (p : A -> bool) (l : list A) :
  forall k, findIndex p l = Some k ->
  exists x, l !! k = Some x /\ p x = true /\ List.find p l = Some x.
Proof.
  induction l as [|a l IH]; simpl; intros k H; [discriminate|].
  destruct (p a) eqn:Ha.
  - injection H as <-. eauto.
  - destruct (findIndex p l) as [j|]; simpl in H; [|discriminate].
    injection H as <-. destruct (IH j eq_refl) as (x & H1 & H2 & H3). eauto.
Qed.

Lemma find_Some_findIndex {A : Type} (p : A -> bool) (l : list A) (x : A) :
  List.find p l = Some x ->
  exists k, findIndex p l = Some k /\ l !! k = Some x /\ p x = true.
Proof.
  induction l as [|a l IH]; simpl; [discriminate|].
  destruct (p a) eqn:Ha.
  - intros [= ->]. exists 0%nat. auto.
  - intros H. destruct (IH H) as (k & -> & H1 & H2). exists (S k). auto.
Qed.

(** Writing an element that satisfies [p] over the first one that does
    keeps it the first. *)
Lemma findRef_insert {A : Type} (p : A -> bool) (l : list A) (x' : A) :
  forall i x, findRef p l = Some (i, x) -> p x' = true ->
  findRef p (<[i := x']> l) = Some (i, x').
Proof.
  induction l as [|a l IH]; simpl; intros i x H Hx'; [discriminate|].
  destruct (p a) eqn:Ha.
  - injection H as <- <-. simpl. rewrite Hx'. reflexivity.
  - destruct (findRef p l) as [[j y]|] eqn:E; simpl in H; [|discriminate].
    injection H as <- <-. simpl. rewrite Ha, (IH j y eq_refl Hx'). reflexivity.
Qed.

(** When the element that [findIndex] reports is the only one that
    satisfies [p], removing it is filtering [p] out. *)
Lemma delete_first_filter {A : Type} (p : A -> bool) (l : list A) :
  forall k, findIndex p l = Some k ->
  (forall x, x ∈ delete k l -> p x = false) ->
  delete k l = List.filter (fun x => negb (p x)) l.
Proof.
  induction l as [|a l IH]; simpl; intros k H Hu; [discriminate|].
  destruct (p a) eqn:Ha.
  - injection H as <-. simpl in *.
    clear IH. induction l as [|b l IHl]; simpl; [reflexivity|].
    rewrite (Hu b) by apply list_elem_of_here. simpl. f_equal.
    apply IHl. intros x Hx. apply Hu. apply elem_of_cons. auto.
  - destruct (findIndex p l) as [j|] eqn:E; simpl in H; [|discriminate].
    injection H as <-. simpl in *. f_equal.
    apply (IH j eq_refl). intros x Hx. apply Hu. apply elem_of_cons. auto.
Qed.

Lemma id_matches_same_id n b b' :
  Booking.id b' = Booking.id b -> id_matches n b' = id_matches n b.
Proof. unfold id_matches. intros ->. reflexivity. Qed.

Lemma id_matches_eq n b b' :
  id_matches n b = true -> id_matches n b' = true -> Booking.id b = Booking.id b'.
Proof.
  unfold id_matches. simpl. destruct n as [|z|a d|neg]; try discriminate.
  intros H1 H2. apply Z.eqb_eq in H1, H2. congruence.
Qed.

(** With distinct ids the booking that [DELETE /:id] removes is the only
    one that matches. *)
Lemma delete_leaves_no_match n (l : list Booking.t) k :
  NoDup (Booking.id <$> l) -> findIndex (id_matches n) l = Some k ->
  forall x, x ∈ delete k l -> id_matches n x = false.
Proof.
  intros Hnd Hk x Hx.
  destruct (findIndex_Some _ _ _ Hk) as (b & Hb & Hpb & _).
  destruct (id_matches n x) eqn:Hpx; [|reflexivity]. exfalso.
  apply list_elem_of_lookup in Hx as [j Hj].
  assert (Hj' : exists j', j' <> k /\ l !! j' = Some x).
  { destruct (decide (j < k)%nat) as [Hlt|Hge].
    - exists j. split; [lia|]. rewrite list_lookup_delete_lt in Hj by exact Hlt. exact Hj.
    - exists (S j). split; [lia|]. rewrite list_lookup_delete_ge in Hj by lia. exact Hj. }
  destruct Hj' as (j' & Hne & Hj').
  apply Hne. apply (NoDup_lookup _ _ _ (Booking.id b) Hnd).
  - rewrite list_lookup_fmap, Hj'. simpl. f_equal. apply (id_matches_eq n); assumption.
  - rewrite list_lookup_fmap, Hb. reflexivity.
Qed.

(** X3.  A booking that [POST /] has just answered with [201] is what
    [GET /:id] returns for its id, in every reachable store: no older
    booking carries the id that the counter hands out. *)
Theorem get_after_create now st body b st' idParam :
  reachable st ->
  createBooking now st body = (created b, st') ->
  Js.parseInt idParam = Js.Int (Booking.id b) ->
  getBooking st' idParam = (found b, st').
Proof.
  intros Hr Hc Hid.
  destruct (incomplete body) eqn:Hi.
  { rewrite (createBooking_incomplete _ _ _ Hi) in Hc. discriminate. }
  destruct (out_of_range body) eqn:Ho.
  { rewrite (createBooking_out_of_range _ _ _ Hi Ho) in Hc. discriminate. }
  rewrite (createBooking_passes _ _ _ Hi Ho) in Hc.
  injection Hc as <- <-. simpl in Hid.
  unfold getBooking, pushed. cbn [bookings]. rewrite Hid, find_app.
  assert (Hnone : List.find (id_matches (Js.Int (nextId st))) (bookings st) = None).
  { apply find_None_iff, id_matches_absent. intros x Hx.
    destruct (reachable_ids_fresh st Hr) as [_ Hlt].
    rewrite Forall_forall in Hlt. specialize (Hlt x Hx).
    intros [= E]. lia. }
  rewrite Hnone. simpl. unfold id_matches. simpl. rewrite Z.eqb_refl. reflexivity.
Qed.

Lemma get_after_create_witness :
  getBooking (pushed clock (posted 2) validBooking) "3"
  = (found (newBooking clock 3 validBooking),
     pushed clock (posted 2) validBooking).
Proof.
  exact (get_after_create clock (posted 2) validBooking
           (newBooking clock 3 validBooking)
           (pushed clock (posted 2) validBooking) "3"
           (reachable_posted 2) eq_refl eq_refl).
Defined.

(** X4.  After a [PUT /:id] that succeeded, [GET /:id] with the same
    parameter returns the very booking that the update reported. *)
Theorem get_after_update now st idParam body b' :
  fst (updateBooking now st idParam body) = updated b' ->
  getBooking (snd (updateBooking now st idParam body)) idParam
  = (found b', snd (updateBooking now st idParam body)).
Proof.
  unfold updateBooking.
  destruct (findRef _ _) as [[i b]|] eqn:Href; simpl; [|discriminate].
  intros [= <-].
  destruct (findRef_Some _ _ _ _ Href) as (_ & Hp & _).
  assert (Hp' : id_matches (Js.parseInt idParam) (applyPatch now body b) = true).
  { rewrite (id_matches_same_id _ b); [exact Hp | reflexivity]. }
  pose proof (findRef_insert _ _ _ _ _ Href Hp') as Href'.
  destruct (findRef_Some _ _ _ _ Href') as (_ & _ & Hfind & _).
  unfold getBooking. cbn [bookings]. rewrite Hfind. reflexivity.
Qed.

Lemma get_after_update_witness :
  getBooking cancelled_store "1"
  = (found (applyPatch clock (status_only (Js.str "cancelled"))
              (newBooking clock 1 validBooking)),
     cancelled_store).
Proof.
  exact (get_after_update clock (posted 1) "1"
           (status_only (Js.str "cancelled")) _ eq_refl).
Defined.

(** X5.  In a reachable store a booking that [DELETE /:id] removed is
    gone: [GET /:id], a second [DELETE /:id] and [PUT /:id] with the same
    parameter are all answered with [404]. *)
Theorem gone_after_delete now st idParam body :
  reachable st ->
  is_deleted (fst (deleteBooking st idParam)) = true ->
  getBooking (snd (deleteBooking st idParam)) idParam
  = (failure 404 msg_not_found, snd (deleteBooking st idParam))
  /\ deleteBooking (snd (deleteBooking st idParam)) idParam
     = (failure 404 msg_not_found, snd (deleteBooking st idParam))
  /\ updateBooking now (snd (deleteBooking st idParam)) idParam body
     = (failure 404 msg_not_found, snd (deleteBooking st idParam)).
Proof.
  intros Hr. unfold deleteBooking.
  destruct (findIndex _ _) as [k|] eqn:Hk; simpl; [intros _|discriminate].
  destruct (reachable_ids_fresh st Hr) as [Hnd _].
  pose proof (delete_leaves_no_match _ _ _ Hnd Hk) as Hno.
  assert (Hfind : List.find (id_matches (Js.parseInt idParam))
                    (delete k (bookings st)) = None)
    by (apply find_None_iff; exact Hno).
  unfold getBooking, updateBooking. cbn [bookings].
  rewrite Hfind, (proj2 (findIndex_None_find _ _) Hfind),
    (proj2 (findRef_None_find _ _) Hfind).
  auto.
Qed.

Lemma gone_after_delete_witness :
  getBooking (snd (deleteBooking (posted 3) "2")) "2"
  = (failure 404 msg_not_found, snd (deleteBooking (posted 3) "2")).
Proof.
  exact (proj1 (gone_after_delete clock (posted 3) "2" validBooking
                  (reachable_posted 3) eq_refl)).
Defined.

(** X6.  In a reachable store [DELETE /:id] removes the booking with that
    id and nothing else: the other bookings stay, in their order, and the
    counter keeps its value, so the id is not handed out again. *)
Theorem delete_keeps_others st idParam :
  reachable st ->
  is_deleted (fst (deleteBooking st idParam)) = true ->
  bookings (snd (deleteBooking st idParam))
  = List.filter (fun b => negb (id_matches (Js.parseInt idParam) b)) (bookings st)
  /\ S (length (bookings (snd (deleteBooking st idParam)))) = length (bookings st)
  /\ nextId (snd (deleteBooking st idParam)) = nextId st.
Proof.
  intros Hr. unfold deleteBooking.
  destruct (findIndex _ _) as [k|] eqn:Hk; simpl; [intros _|discriminate].
  destruct (reachable_ids_fresh st Hr) as [Hnd _].
  split; [|split; [|reflexivity]].
  - apply delete_first_filter; [exact Hk|].
    apply delete_leaves_no_match; assumption.
  - destruct (findIndex_Some _ _ _ Hk) as (b & Hb & _).
    apply lookup_lt_Some in Hb. rewrite length_delete by (apply lookup_lt_is_Some_2; exact Hb).
    lia.
Qed.

Lemma delete_keeps_others_witness :
  Booking.id <$> bookings (snd (deleteBooking (posted 3) "2")) = [1; 3].
Proof.
  rewrite (proj1 (delete_keeps_others (posted 3) "2" (reachable_posted 3) eq_refl)).
  reflexivity.
Defined.

Lemma assign_if_idempotent v old : assign_if v (assign_if v old) = assign_if v old.
Proof. unfold assign_if. destruct (Js.ToBoolean v) eqn:E; rewrite ?E; reflexivity. Qed.

(** X7.  [PUT /:id] is idempotent: repeating an update with the same body
    at the same clock reading gives the same response and leaves the store
    as the first update left it. *)
Theorem updateBooking_idempotent now st idParam body :
  updateBooking now (snd (updateBooking now st idParam body)) idParam body
  = updateBooking now st idParam body.
Proof.
  unfold updateBooking at 2 3.
  destruct (findRef _ _) as [[i b]|] eqn:Href; simpl.
  - destruct (findRef_Some _ _ _ _ Href) as (_ & Hp & _).
    assert (Hp' : id_matches (Js.parseInt idParam) (applyPatch now body b) = true).
    { rewrite (id_matches_same_id _ b); [exact Hp | reflexivity]. }
    rewrite (updateBooking_found now _ idParam body i (applyPatch now body b)).
    + cbn [bookings nextId]. rewrite list_insert_insert_eq.
      assert (E : applyPatch now body (applyPatch now body b) = applyPatch now body b).
      { unfold applyPatch. simpl. rewrite !assign_if_idempotent. reflexivity. }
      rewrite E. reflexivity.
    + cbn [bookings]. apply (findRef_insert _ _ _ _ _ Href Hp').
  - unfold updateBooking. rewrite Href. reflexivity.
Qed.

(** ** The counter and the size of the array along a run *)

Lemma run_cons st rq rqs : run st (rq :: rqs) = run (snd (handle st rq)) rqs.
Proof. reflexivity. Qed.

(** What one request does to the counter and to the size of the array,
    told by its response. *)
Lemma handle_counts st rq :
  nextId (snd (handle st rq))
  = nextId st + (if is_created (fst (handle st rq)) then 1 else 0)
  /\ Z.of_nat (length (bookings (snd (handle st rq))))
     = Z.of_nat (length (bookings st))
       + (if is_created (fst (handle st rq)) then 1 else 0)
       - (if is_deleted (fst (handle st rq)) then 1 else 0).
Proof.
  destruct rq as [|i|now body|now i body|i|qd qt]; simpl.
  - split; lia.
  - unfold getBooking. destruct (List.find _ _); simpl; split; lia.
  - destruct (incomplete body) eqn:Hi.
    { rewrite (createBooking_incomplete _ _ _ Hi). simpl. split; lia. }
    destruct (out_of_range body) eqn:Ho.
    { rewrite (createBooking_out_of_range _ _ _ Hi Ho). simpl. split; lia. }
    rewrite (createBooking_passes _ _ _ Hi Ho). simpl.
    rewrite length_app. simpl. split; lia.
  - unfold updateBooking.
    destruct (findRef _ _) as [[k b]|]; simpl; [rewrite length_insert|]; split; lia.
  - unfold deleteBooking.
    destruct (findIndex _ _) as [k|] eqn:Hk; simpl; [|split; lia].
    destruct (findIndex_Some _ _ _ Hk) as (b & Hb & _).
    pose proof (lookup_lt_Some _ _ _ Hb) as Hlt.
    rewrite length_delete by eauto. split; lia.
  - unfold checkAvailability. destruct (_ || _); simpl; split; lia.
Qed.

(** X8.  The counter advances exactly once for each [201] response and at
    no other request: after any requests [nextId] is its old value plus the
    number of bookings created, so a refused request consumes no id and an
    id freed by [DELETE] is never handed out again. *)
Theorem nextId_counts_created rqs : forall st,
  nextId (run st rqs)
  = nextId st + Z.of_nat (length (List.filter is_created (trace st rqs))).
Proof.
  induction rqs as [|rq rqs IH]; intros st; [simpl; lia|].
  rewrite run_cons, IH. cbn [trace List.filter].
  destruct (handle_counts st rq) as [H _]. rewrite H.
  destruct (is_created (fst (handle st rq))); cbn [length]; lia.
Qed.

(** X9.  The number of bookings that [GET /] reports is the number before
    plus the [201] responses minus the successful deletions in between. *)
Theorem count_tracks_trace rqs : forall st,
  Z.of_nat (length (bookings (run st rqs)))
  = Z.of_nat (length (bookings st))
    + Z.of_nat (length (List.filter is_created (trace st rqs)))
    - Z.of_nat (length (List.filter is_deleted (trace st rqs))).
Proof.
  induction rqs as [|rq rqs IH]; intros st; [simpl; lia|].
  rewrite run_cons, IH. cbn [trace List.filter].
  destruct (handle_counts st rq) as [_ H]. rewrite H.
  destruct (is_created (fst (handle st rq))), (is_deleted (fst (handle st rq)));
    cbn [length]; lia.
Qed.

(** ** Occupancy of a slot *)

Lemma occupied_count st qdate qtime :
  Js.ToBoolean qdate = true -> Js.ToBoolean qtime = true ->
  occupied st qdate qtime
  = Some (Z.of_nat (length (List.filter (occupies qdate qtime) (bookings st)))).
Proof.
  intros Hd Ht. unfold occupied, checkAvailability, Js.not.
  rewrite Hd, Ht. reflexivity.
Qed.

Lemma filter_length_insert {A : Type} (f : A -> bool) (l : list A) (x' : A) :
  forall i x, l !! i = Some x ->
  (length (List.filter f (<[i := x']> l)) + (if f x then 1 else 0)
   = length (List.filter f l) + (if f x' then 1 else 0))%nat.
Proof.
  induction l as [|a l IH]; intros i x Hi; [destruct i; discriminate|].
  destruct i as [|i]; simpl in *.
  - injection Hi as ->. destruct (f x), (f x'); simpl; lia.
  - specialize (IH i x Hi). destruct (f a); simpl; lia.
Qed.

Lemma filter_length_delete {A : Type} (f : A -> bool) (l : list A) :
  forall k x, l !! k = Some x ->
  (length (List.filter f (delete k l)) + (if f x then 1 else 0)
   = length (List.filter f l))%nat.
Proof.
  induction l as [|a l IH]; intros k x Hk; [destruct k; discriminate|].
  destruct k as [|k]; simpl in *.
  - injection Hk as ->. destruct (f x); simpl; lia.
  - specialize (IH k x Hk). destruct (f a); simpl; lia.
Qed.

Lemma strict_eq_str_refl s : Js.strict_eq (Js.str s) (Js.str s) = true.
Proof. simpl. apply String.eqb_refl. Qed.

Lemma strict_eq_confirmed_false s :
  s <> Js.str "confirmed" -> Js.strict_eq s (Js.str "confirmed") = false.
Proof.
  intros Hs. destruct (Js.strict_eq s (Js.str "confirmed")) eqn:E; [|reflexivity].
  apply strict_eq_str in E. contradiction.
Qed.

(** X10.  A booking that [POST /] stores adds one to [occupiedTables] of
    every slot whose date and time are strictly equal to its own, and
    leaves the figure of every other slot as it was; a request whose date
    and time are strings always counts at its own slot. *)
Theorem create_occupies_slot now st body b st' qdate qtime :
  createBooking now st body = (created b, st') ->
  Js.ToBoolean qdate = true -> Js.ToBoolean qtime = true ->
  occupied st' qdate qtime
  = (fun n => n + (if at_slot qdate qtime b then 1 else 0))
      <$> occupied st qdate qtime
  /\ (forall d t, Body.date body = Js.str d -> Body.time body = Js.str t ->
        at_slot (Js.str d) (Js.str t) b = true).
Proof.
  intros Hc Hd Ht.
  destruct (incomplete body) eqn:Hi.
  { rewrite (createBooking_incomplete _ _ _ Hi) in Hc. discriminate. }
  destruct (out_of_range body) eqn:Ho.
  { rewrite (createBooking_out_of_range _ _ _ Hi Ho) in Hc. discriminate. }
  rewrite (createBooking_passes _ _ _ Hi Ho) in Hc. injection Hc as <- <-.
  split.
  - rewrite !occupied_count by assumption. unfold pushed. cbn [bookings fmap option_fmap option_map].
    rewrite List.filter_app, length_app. cbn [List.filter].
    unfold occupies at 2, at_slot. cbn [newBooking Booking.date Booking.time Booking.status].
    rewrite strict_eq_str_refl, andb_true_r.
    destruct (_ && _); cbn [length]; f_equal; lia.
  - intros d t Hbd Hbt. unfold at_slot. cbn. rewrite Hbd, Hbt.
    rewrite !strict_eq_str_refl. reflexivity.
Qed.

Lemma create_occupies_slot_witness :
  occupied (pushed clock (posted 2) validBooking)
    (Js.str "2026-02-15") (Js.str "19:00") = Some 3.
Proof.
  rewrite (proj1 (create_occupies_slot clock (posted 2) validBooking
                    (newBooking clock 3 validBooking)
                    (pushed clock (posted 2) validBooking)
                    (Js.str "2026-02-15") (Js.str "19:00")
                    eq_refl eq_refl eq_refl)).
  reflexivity.
Defined.

(** X11.  Setting the status of a confirmed booking to anything else
    through [PUT /:id], ['cancelled'] for one, frees its slot:
    [occupiedTables] of the slot it is in goes down by one. *)
Theorem status_change_releases_slot now st idParam b s qdate qtime :
  List.find (id_matches (Js.parseInt idParam)) (bookings st) = Some b ->
  occupies qdate qtime b = true ->
  Js.ToBoolean s = true -> s <> Js.str "confirmed" ->
  Js.ToBoolean qdate = true -> Js.ToBoolean qtime = true ->
  occupied (snd (updateBooking now st idParam (status_only s))) qdate qtime
  = (fun n => n - 1) <$> occupied st qdate qtime.
Proof.
  intros Hfind Hocc Hs Hne Hd Ht.
  destruct (find_Some_findRef _ _ _ Hfind) as [i Href].
  destruct (findRef_Some _ _ _ _ Href) as (Hi & _).
  rewrite (updateBooking_found _ _ _ _ _ _ Href).
  rewrite !occupied_count by assumption. cbn [snd bookings fmap option_fmap option_map].
  pose proof (filter_length_insert (occupies qdate qtime) (bookings st)
                (applyPatch now (status_only s) b) i b Hi) as Hlen.
  rewrite Hocc in Hlen.
  assert (Hnew : occupies qdate qtime (applyPatch now (status_only s) b) = false).
  { unfold occupies, applyPatch, status_only, assign_if.
    cbn [Booking.date Booking.time Booking.status Body.status].
    rewrite Hs, (strict_eq_confirmed_false s Hne). apply andb_false_r. }
  rewrite Hnew in Hlen. f_equal. lia.
Qed.

Lemma status_change_releases_slot_witness :
  occupied cancelled_store (Js.str "2026-02-15") (Js.str "19:00") = Some 0.
Proof.
  unfold cancelled_store.
  rewrite (status_change_releases_slot clock (posted 1) "1"
             (newBooking clock 1 validBooking) (Js.str "cancelled")
             (Js.str "2026-02-15") (Js.str "19:00") eq_refl eq_refl eq_refl).
  - reflexivity.
  - discriminate.
  - reflexivity.
  - reflexivity.
Defined.

(** X12.  [DELETE /:id] lowers [occupiedTables] by one exactly for the
    slots that counted the booking it removes, and leaves every other
    slot's figure as it was. *)
Theorem delete_releases_slot st idParam b qdate qtime :
  List.find (id_matches (Js.parseInt idParam)) (bookings st) = Some b ->
  Js.ToBoolean qdate = true -> Js.ToBoolean qtime = true ->
  occupied (snd (deleteBooking st idParam)) qdate qtime
  = (fun n => n - (if occupies qdate qtime b then 1 else 0))
      <$> occupied st qdate qtime.
Proof.
  intros Hfind Hd Ht.
  destruct (find_Some_findIndex _ _ _ Hfind) as (k & Hk & Hb & _).
  unfold deleteBooking. rewrite Hk.
  rewrite !occupied_count by assumption. cbn [snd bookings fmap option_fmap option_map].
  pose proof (filter_length_delete (occupies qdate qtime) (bookings st) k b Hb) as Hlen.
  f_equal. destruct (occupies qdate qtime b); lia.
Qed.

Lemma delete_releases_slot_witness :
  occupied (snd (deleteBooking (posted 3) "2"))
    (Js.str "2026-02-15") (Js.str "19:00") = Some 2.
Proof.
  rewrite (delete_releases_slot (posted 3) "2" (newBooking clock 2 validBooking)
             (Js.str "2026-02-15") (Js.str "19:00") eq_refl eq_refl eq_refl).
  reflexivity.
Defined.

(** ** The booking form *)

Lemma form_phone_kept es : forall fd,
  BookingForm.phone fd = Js.str "" ->
  BookingForm.phone (foldl BookingForm.on fd es) = Js.str "".
Proof.
  induction es as [|e es IH]; intros fd Hfd; simpl; [exact Hfd|].
  apply IH. destruct e; simpl; exact Hfd.
Qed.

(** X13.  The form has no input for the phone: whatever the user types
    and selects, [formData.phone] stays the empty string, so the form data
    sent as the body of [POST /] is refused by the guard on required
    fields and nothing is stored. *)
Theorem form_never_collects_phone es now st :
  BookingForm.phone (BookingForm.after es) = Js.str ""
  /\ createBooking now st (BookingForm.body (BookingForm.after es))
     = (failure 400 msg_all_required, st).
Proof.
  assert (Hp : BookingForm.phone (BookingForm.after es) = Js.str "")
    by (apply form_phone_kept; reflexivity).
  split; [exact Hp|].
  apply createBooking_incomplete. unfold incomplete. cbn [BookingForm.body Body.phone].
  rewrite Hp. apply orb_true_r.
Qed.

(** ** [check_table_availability] under changes of the database *)

Lemma filter_perm {A : Type} (f : A -> bool) (l l' : list A) :
  l ≡ₚ l' -> List.filter f l ≡ₚ List.filter f l'.
Proof.
  induction 1 as [|x l l' _ IH|x y l|l l' l'' _ IH1 _ IH2]; simpl.
  - reflexivity.
  - destruct (f x); [constructor|]; exact IH.
  - destruct (f x), (f y); try reflexivity. apply perm_swap.
  - etransitivity; eassumption.
Qed.

Lemma filter_strongly_sorted {A : Type} (R : A -> A -> Prop) (f : A -> bool)
  (l : list A) :
  StronglySorted R l -> StronglySorted R (List.filter f l).
Proof.
  induction 1 as [|x l Hs IH Hx]; simpl; [constructor|].
  destruct (f x); [|exact IH]. constructor; [exact IH|].
  rewrite Forall_forall in *. intros y Hy.
  apply Hx. apply list_elem_of_In in Hy. apply filter_In in Hy as [Hy _].
  apply list_elem_of_In. exact Hy.
Qed.

Lemma filter_fmap {A B : Type} (h : A -> B) (g : B -> bool) (l : list A) :
  List.filter g (h <$> l) = h <$> List.filter (fun x => g (h x)) l.
Proof.
  induction l as [|x l IH]; [reflexivity|].
  cbn [fmap list_fmap List.filter] in *.
  destruct (g (h x)); cbn [list_fmap]; rewrite IH; reflexivity.
Qed.

Lemma filter_filter {A : Type} (f g : A -> bool) (l : list A) :
  List.filter f (List.filter g l) = List.filter (fun x => g x && f x) l.
Proof.
  induction l as [|x l IH]; simpl; [reflexivity|].
  destruct (g x); simpl; [destruct (f x)|]; rewrite IH; reflexivity.
Qed.

Lemma existsb_filter {A : Type} (f q : A -> bool) (l : list A) :
  (forall x, f x = true -> q x = true) ->
  existsb f (List.filter q l) = existsb f l.
Proof.
  intros H. induction l as [|x l IH]; simpl; [reflexivity|].
  destruct (q x) eqn:Hq; simpl; rewrite IH; [reflexivity|].
  destruct (f x) eqn:Hf; [|reflexivity]. rewrite (H x Hf) in Hq. discriminate.
Qed.

(** How the rows for one party size give the rows for another predicate
    on the tables. *)
Lemma returns_filter db db' d t p p' (g : Sql.Candidate -> bool) rows :
  Sql.tables db' = Sql.tables db ->
  (forall tb, Sql.qualifies db' d t p' tb
              = Sql.qualifies db d t p tb && g (Sql.select_list tb)) ->
  Sql.returns db d t p rows ->
  Sql.returns db' d t p' (List.filter g rows).
Proof.
  intros Ht Hq [Hperm Hsorted]. split.
  - rewrite (filter_perm g _ _ Hperm), filter_fmap, filter_filter, Ht.
    rewrite (List.filter_ext _ _ Hq). reflexivity.
  - apply filter_strongly_sorted. exact Hsorted.
Qed.

Lemma qualifies_only_blocking db d t p tb :
  Sql.qualifies (only_blocking db d t) d t p tb = Sql.qualifies db d t p tb.
Proof.
  unfold Sql.qualifies, only_blocking. cbn [Sql.bookings].
  rewrite existsb_filter; [reflexivity|].
  intros b Hb. unfold Sql.blocks in Hb.
  repeat (apply andb_true_iff in Hb as [Hb ?]).
  repeat (apply andb_true_iff; split); assumption.
Qed.

(** X14.  Only bookings that are pending or confirmed at the requested
    date and time matter to [check_table_availability]: dropping every
    cancelled, completed or no-show booking, every booking without a
    status and every booking of another date or time changes neither the
    rows the query admits nor the rows the executor returns. *)
Theorem only_blocking_bookings_matter db d t p :
  (forall rows, Sql.returns db d t p rows
                <-> Sql.returns (only_blocking db d t) d t p rows)
  /\ Sql.check_table_availability (only_blocking db d t) d t p
     = Sql.check_table_availability db d t p.
Proof.
  assert (E : List.filter (Sql.qualifies (only_blocking db d t) d t p) (Sql.tables db)
              = List.filter (Sql.qualifies db d t p) (Sql.tables db)).
  { apply List.filter_ext. intros tb. apply qualifies_only_blocking. }
  split.
  - intros rows. unfold Sql.returns. cbn [only_blocking Sql.tables].
    fold (only_blocking db d t). rewrite E. reflexivity.
  - unfold Sql.check_table_availability. cbn [only_blocking Sql.tables].
    fold (only_blocking db d t). rewrite E. reflexivity.
Qed.

(** X15.  A larger party is offered a part of what a smaller one is
    offered: from any rows the query admits for [p], keeping the rows with
    capacity at least [p'] gives rows it admits for [p'], when [p <= p']. *)
Theorem larger_party_fewer_tables db d t p p' rows :
  p <= p' ->
  Sql.returns db d t p rows ->
  Sql.returns db d t p' (List.filter (fun r => p' <=? Sql.capacity r) rows).
Proof.
  intros Hle. apply returns_filter; [reflexivity|].
  intros tb. unfold Sql.qualifies. cbn [Sql.select_list Sql.capacity].
  destruct (Z.leb_spec p' (Sql.Table.capacity tb)) as [H|H];
    destruct (Z.leb_spec p (Sql.Table.capacity tb)) as [H'|H'];
    try lia; cbn [andb]; rewrite ?andb_true_r, ?andb_false_r; reflexivity.
Qed.

Lemma larger_party_fewer_tables_witness :
  Sql.returns (Sql.mkDatabase Sql.sample_tables []) 0 0 6
    (List.filter (fun r => 6 <=? Sql.capacity r)
       (Sql.check_table_availability (Sql.mkDatabase Sql.sample_tables []) 0 0 2)).
Proof.
  apply (larger_party_fewer_tables (Sql.mkDatabase Sql.sample_tables []) 0 0 2 6).
  - lia.
  - split; [apply order_by_capacity_perm | apply order_by_capacity_sorted].
Defined.

(** X16.  A new pending or confirmed booking of table [x] at the date and
    time takes exactly the rows of table [x] out of the candidates: from
    any rows the query admitted before, dropping those of table [x] gives
    rows it admits afterwards. *)
Theorem booking_removes_its_table db d t p b x rows :
  Sql.Row.table_id b = Some x ->
  Sql.Row.booking_date b = d -> Sql.Row.booking_time b = t ->
  Sql.status_active (Sql.Row.status b) = true ->
  Sql.returns db d t p rows ->
  Sql.returns (with_booking db b) d t p
    (List.filter (fun r => negb (Sql.table_id r =? x)) rows).
Proof.
  intros Hx Hd Ht Hs. apply returns_filter; [reflexivity|].
  intros tb. unfold Sql.qualifies, with_booking. cbn [Sql.bookings Sql.select_list Sql.table_id].
  rewrite existsb_app. cbn [existsb]. rewrite orb_false_r, negb_orb.
  unfold Sql.blocks at 2. rewrite Hx, Hd, Ht, Hs, !Z.eqb_refl, !andb_true_r.
  rewrite (Z.eqb_sym x). rewrite andb_assoc. reflexivity.
Qed.

Lemma booking_removes_its_table_witness :
  Sql.returns
    (with_booking (Sql.mkDatabase Sql.sample_tables [])
       (Sql.Row.mk 1 (Some 3) 0 0 4 (Some Sql.confirmed))) 0 0 4
    (List.filter (fun r => negb (Sql.table_id r =? 3))
       (Sql.check_table_availability (Sql.mkDatabase Sql.sample_tables []) 0 0 4)).
Proof.
  apply (booking_removes_its_table (Sql.mkDatabase Sql.sample_tables []) 0 0 4
           (Sql.Row.mk 1 (Some 3) 0 0 4 (Some Sql.confirmed)) 3);
    try reflexivity.
  split; [apply order_by_capacity_perm | apply order_by_capacity_sorted].
Defined.

(** ** The view [v_daily_bookings] *)

Lemma later_first_transitive : Transitive Reports.later_first.
Proof. intros a b c. unfold Reports.later_first. lia. Qed.

Lemma later_first_total : Total Reports.later_first.
Proof. intros a b. unfold Reports.later_first. lia. Qed.

(** The dates of the view: every date that occurs, once, latest first. *)
Lemma view_dates (bs : list Sql.Row.t) :
  let ds := @merge_sort Z Reports.later_first Reports.later_first_dec
              (remove_dups (Sql.Row.booking_date <$> bs)) in
  StronglySorted (fun a b => b < a) ds
  /\ NoDup ds
  /\ forall d, d ∈ ds <-> exists b, b ∈ bs /\ Sql.Row.booking_date b = d.
Proof.
  intros ds.
  assert (Hperm : ds ≡ₚ remove_dups (Sql.Row.booking_date <$> bs))
    by apply merge_sort_Permutation.
  assert (Hnd : NoDup ds) by (rewrite Hperm; apply NoDup_remove_dups).
  assert (Hs : StronglySorted Reports.later_first ds)
    by apply (@StronglySorted_merge_sort Z Reports.later_first
                Reports.later_first_dec later_first_transitive later_first_total).
  split; [|split; [exact Hnd|]].
  - clear Hperm. induction Hs as [|x l Hs IH Hx]; [constructor|].
    apply NoDup_cons in Hnd as [Hnotin Hnd]. constructor; [apply IH; exact Hnd|].
    rewrite Forall_forall in *. intros y Hy. specialize (Hx y Hy).
    unfold Reports.later_first in Hx.
    assert (y <> x) by (intros ->; contradiction). lia.
  - intros d. rewrite Hperm, elem_of_remove_dups, list_elem_of_fmap.
    split; intros (b & H1 & H2); exists b; auto.
Qed.

(** X17.  [v_daily_bookings] has one row for each date on which there is
    a booking and for no other date, and lists the rows with strictly
    descending dates. *)
Theorem v_daily_bookings_dates bs :
  StronglySorted
    (fun r1 r2 => Reports.booking_date r2 < Reports.booking_date r1)
    (Reports.v_daily_bookings bs)
  /\ forall d,
       (exists r, r ∈ Reports.v_daily_bookings bs /\ Reports.booking_date r = d)
       <-> (exists b, b ∈ bs /\ Sql.Row.booking_date b = d).
Proof.
  destruct (view_dates bs) as (Hs & _ & Hin). unfold Reports.v_daily_bookings.
  split.
  - eapply StronglySorted_fmap; [|exact Hs].
    intros a b Hab. exact Hab.
  - intros d. rewrite <- Hin. split.
    + intros (r & Hr & <-). apply list_elem_of_fmap in Hr as (d' & -> & Hd').
      exact Hd'.
    + intros Hd. exists (Reports.aggregate d bs). split; [|reflexivity].
      apply list_elem_of_fmap. exists d. auto.
Qed.

Lemma sumZ_perm {A : Type} (f : A -> Z) (l l' : list A) :
  l ≡ₚ l' -> sumZ f l = sumZ f l'.
Proof.
  induction 1 as [|x l l' _ IH|x y l|l l' l'' _ IH1 _ IH2]; simpl;
    unfold sumZ in *; simpl; lia.
Qed.

Lemma sumZ_fmap {A B : Type} (h : A -> B) (f : B -> Z) (l : list A) :
  sumZ f (h <$> l) = sumZ (fun x => f (h x)) l.
Proof.
  induction l as [|x l IH]; [reflexivity|].
  unfold sumZ in *. cbn [fmap list_fmap foldr] in *. rewrite IH. reflexivity.
Qed.

Lemma sumZ_ext {A : Type} (f g : A -> Z) (l : list A) :
  (forall x, f x = g x) -> sumZ f l = sumZ g l.
Proof.
  intros H. induction l as [|x l IH]; unfold sumZ in *; simpl; [reflexivity|].
  rewrite H, IH. reflexivity.
Qed.

Lemma sumZ_zero {A : Type} (l : list A) : sumZ (fun _ => 0) l = 0.
Proof. induction l as [|x l IH]; unfold sumZ in *; simpl; lia. Qed.

Lemma sumZ_length {A : Type} (l : list A) :
  sumZ (fun _ => 1) l = Z.of_nat (length l).
Proof. induction l as [|x l IH]; unfold sumZ in *; simpl; lia. Qed.

(** Exactly one of distinct dates that cover [d] is [d]. *)
Lemma sumZ_indicator (d : Z) (w : Z) (ds : list Z) :
  NoDup ds -> d ∈ ds ->
  sumZ (fun d' => if d =? d' then w else 0) ds = w.
Proof.
  induction 1 as [|x l Hx Hnd IH]; intros Hd; [inversion Hd|].
  unfold sumZ in *. simpl. apply elem_of_cons in Hd as [->|Hd].
  - rewrite Z.eqb_refl.
    assert (E : foldr (fun d' acc => (if x =? d' then w else 0) + acc) 0 l = 0).
    { clear IH Hnd. induction l as [|y l IHl]; [reflexivity|]. simpl.
      destruct (Z.eqb_spec x y) as [->|_].
      - exfalso. apply Hx. apply list_elem_of_here.
      - rewrite IHl; [lia|]. intros H. apply Hx. apply elem_of_cons. auto. }
    rewrite E. lia.
  - destruct (Z.eqb_spec d x) as [->|_]; [contradiction|].
    rewrite (IH Hd). lia.
Qed.

(** Summing a weight group by group over distinct dates that cover the
    bookings is summing it over the bookings. *)
Lemma sumZ_groups (w : Sql.Row.t -> Z) (ds : list Z) :
  NoDup ds -> forall bs,
  (forall b, b ∈ bs -> Sql.Row.booking_date b ∈ ds) ->
  sumZ (fun d => sumZ w (Reports.group d bs)) ds = sumZ w bs.
Proof.
  intros Hnd bs. induction bs as [|b bs IH]; intros Hcov.
  - rewrite (sumZ_ext _ (fun _ => 0)) by reflexivity. apply sumZ_zero.
  - assert (Hb : Sql.Row.booking_date b ∈ ds) by (apply Hcov, list_elem_of_here).
    assert (Hcov' : forall b', b' ∈ bs -> Sql.Row.booking_date b' ∈ ds)
      by (intros b' Hb'; apply Hcov, elem_of_cons; auto).
    specialize (IH Hcov').
    transitivity
      (sumZ (fun d => if Sql.Row.booking_date b =? d then w b else 0) ds
       + sumZ (fun d => sumZ w (Reports.group d bs)) ds).
    + clear. induction ds as [|d ds IHd]; [reflexivity|].
      unfold sumZ in *. cbn [foldr]. rewrite IHd.
      unfold Reports.group. cbn [List.filter].
      destruct (Sql.Row.booking_date b =? d); cbn [foldr]; lia.
    + rewrite (sumZ_indicator _ _ _ Hnd Hb), IH. unfold sumZ. simpl. reflexivity.
Qed.

(** X18.  The view loses and repeats nothing: the [total_bookings] of its
    rows add up to the number of bookings and the [total_guests] to the
    number of guests of all bookings. *)
Theorem v_daily_bookings_totals bs :
  sumZ Reports.total_bookings (Reports.v_daily_bookings bs)
  = Z.of_nat (length bs)
  /\ sumZ Reports.total_guests (Reports.v_daily_bookings bs)
     = sumZ Sql.Row.number_of_guests bs.
Proof.
  destruct (view_dates bs) as (_ & Hnd & Hin). unfold Reports.v_daily_bookings.
  rewrite !sumZ_fmap. cbn [Reports.aggregate Reports.total_bookings Reports.total_guests].
  assert (Hcov : forall b, b ∈ bs ->
            Sql.Row.booking_date b
            ∈ @merge_sort Z Reports.later_first Reports.later_first_dec
                (remove_dups (Sql.Row.booking_date <$> bs)))
    by (intros b Hb; apply Hin; eauto).
  split.
  - rewrite <- sumZ_length.
    rewrite <- (sumZ_groups (fun _ => 1) _ Hnd bs Hcov).
    apply sumZ_ext. intros d. symmetry. apply sumZ_length.
  - unfold Reports.sum_guests. apply (sumZ_groups _ _ Hnd bs Hcov).
Qed.

Lemma sumZ_lower_bound {A : Type} (f : A -> Z) (l : list A) :
  Forall (fun x => 0 < f x) l -> Z.of_nat (length l) <= sumZ f l.
Proof.
  induction 1 as [|x l Hx _ IH]; unfold sumZ in *; simpl; lia.
Qed.

Lemma filter_disjoint_length {A : Type} (f g : A -> bool) (l : list A) :
  (forall x, f x = true -> g x = false) ->
  (length (List.filter f l) + length (List.filter g l) <= length l)%nat.
Proof.
  intros H. induction l as [|x l IH]; simpl; [lia|].
  destruct (f x) eqn:Hf; [rewrite (H x Hf)|destruct (g x)]; simpl; lia.
Qed.

(** X19.  When every booking respects [CHECK (number_of_guests > 0)],
    each row of the view stands for at least one booking, counts at least
    one guest per booking, and its confirmed and cancelled bookings
    together are no more than its bookings. *)
Theorem v_daily_bookings_rows bs r :
  Forall (fun b => 0 < Sql.Row.number_of_guests b) bs ->
  r ∈ Reports.v_daily_bookings bs ->
  1 <= Reports.total_bookings r
  /\ Reports.total_bookings r <= Reports.total_guests r
  /\ 0 <= Reports.confirmed_bookings r
  /\ 0 <= Reports.cancelled_bookings r
  /\ Reports.confirmed_bookings r + Reports.cancelled_bookings r
     <= Reports.total_bookings r.
Proof.
  intros Hpos Hr. destruct (view_dates bs) as (_ & _ & Hin).
  unfold Reports.v_daily_bookings in Hr.
  apply list_elem_of_fmap in Hr as (d & -> & Hd).
  apply Hin in Hd as (b & Hb & Hbd).
  cbn [Reports.aggregate Reports.total_bookings Reports.total_guests
       Reports.confirmed_bookings Reports.cancelled_bookings].
  assert (Hg : b ∈ Reports.group d bs).
  { apply list_elem_of_In, filter_In. split; [apply list_elem_of_In; exact Hb|].
    apply Z.eqb_eq. exact Hbd. }
  assert (Hlen : (1 <= length (Reports.group d bs))%nat).
  { destruct (Reports.group d bs); [inversion Hg | simpl; lia]. }
  assert (Hgpos : Forall (fun b => 0 < Sql.Row.number_of_guests b) (Reports.group d bs)).
  { rewrite Forall_forall in *. intros x Hx. apply Hpos.
    apply list_elem_of_In, filter_In in Hx as [Hx _]. apply list_elem_of_In. exact Hx. }
  pose proof (sumZ_lower_bound _ _ Hgpos) as Hsum.
  pose proof (filter_disjoint_length (Reports.has_status Sql.confirmed)
                (Reports.has_status Sql.cancelled) (Reports.group d bs)) as Hdis.
  unfold Reports.sum_guests.
  repeat split; try lia.
  apply Nat2Z.inj_le in Hdis; [lia|].
  intros x. unfold Reports.has_status. destruct (Sql.Row.status x) as [[]|]; simpl; congruence.
Qed.

Lemma v_daily_bookings_rows_witness :
  1 <= Reports.total_bookings
         (Reports.aggregate 1
            [Sql.Row.mk 1 (Some 3) 1 0 4 (Some Sql.confirmed);
             Sql.Row.mk 2 (Some 6) 2 0 6 (Some Sql.confirmed);
             Sql.Row.mk 3 (Some 1) 1 0 2 (Some Sql.cancelled)]).
Proof.
  refine (proj1 (v_daily_bookings_rows
            [Sql.Row.mk 1 (Some 3) 1 0 4 (Some Sql.confirmed);
             Sql.Row.mk 2 (Some 6) 2 0 6 (Some Sql.confirmed);
             Sql.Row.mk 3 (Some 1) 1 0 2 (Some Sql.cancelled)]
            _ _ _)).
  - repeat constructor.
  - vm_compute. right. left.
Defined.

Lemma filter_NoDup_fmap {A B : Type} (h : A -> B) (f : A -> bool) (l : list A) :
  NoDup (h <$> l) -> NoDup (h <$> List.filter f l).
Proof.
  induction l as [|x l IH]; [intros _; constructor|].
  cbn [fmap list_fmap List.filter]. fold (fmap (M:=list) h).
  intros [Hx Hnd]%NoDup_cons. specialize (IH Hnd).
  destruct (f x); [|exact IH].
  cbn [fmap list_fmap]. fold (fmap (M:=list) h). apply NoDup_cons. split; [|exact IH].
  intros Hin. apply Hx.
  apply list_elem_of_fmap in Hin as (y & Hy & Hin).
  apply list_elem_of_fmap. exists y. split; [exact Hy|].
  apply list_elem_of_In. apply list_elem_of_In, filter_In in Hin as [Hin _]. exact Hin.
Qed.

(** X20.  With the primary key on [tables] (distinct ids), no table is
    offered twice: the table ids of any rows the query admits are
    distinct, and there are no more rows than tables. *)
Theorem candidates_distinct db d t p rows :
  NoDup (Sql.Table.id <$> Sql.tables db) ->
  Sql.returns db d t p rows ->
  NoDup (Sql.table_id <$> rows)
  /\ (length rows <= length (Sql.tables db))%nat.
Proof.
  intros Hpk [Hperm _]. split.
  - rewrite Hperm, <- list_fmap_compose.
    apply (filter_NoDup_fmap (Sql.table_id ∘ Sql.select_list)). exact Hpk.
  - rewrite Hperm, length_fmap. apply List.filter_length_le.
Qed.

Lemma candidates_distinct_witness :
  NoDup (Sql.table_id
           <$> Sql.check_table_availability
                 (Sql.mkDatabase Sql.sample_tables []) 0 0 4).
Proof.
  refine (proj1 (candidates_distinct (Sql.mkDatabase Sql.sample_tables []) 0 0 4
                   _ _ _)).
  - vm_compute. repeat (constructor; [intros H; repeat (apply elem_of_cons in H as [H|H]; [discriminate|]); inversion H|]).
    constructor.
  - split; [apply order_by_capacity_perm | apply order_by_capacity_sorted].
Defined.
